(** * Eye of Saudi Arabia: script generator and script analyzer

    A shallow embedding of [src/app.py]: the two classes
    [ProfessionalScriptGenerator] and [AdvancedScriptAnalyzer], together with
    the pieces of the Python runtime they call ([str.split], [str.strip],
    [str.count], [in], [re.findall] on digit patterns, [collections.Counter],
    [round], [int], [random.choice], [random.sample], [strftime]).

    Conventions.
    - A Python [str] is a list of Unicode code points ([N]); a literal of the
      source is written as a UTF-8 string and decoded by [u].
    - A Python [int] is a [Z].
    - A Python [float] is modelled by an exact rational ([Q]): [/] is exact
      division, [round(x, 1)] rounds the exact value half-to-even at one
      decimal, [int(x)] truncates toward zero.  Binary rounding error of IEEE
      doubles is outside the model.
    - [random] is a tape of naturals read through a cursor; [datetime.now()]
      is a reading of the clock handed in by the caller. *)

From Stdlib Require Import String Ascii.
From Stdlib Require Import ZArith NArith QArith Qround Qabs Bool List.
From Stdlib Require Import Lia Lqa Sorted Permutation.
Import ListNotations.

Open Scope Z_scope.

(** * The Python runtime, as far as the program uses it *)

Module Py.

(** ** Strings *)

Definition char := N.
Definition str := list char.

(** UTF-8 decoding of the bytes of a literal (one to four bytes a code
    point); literals of the source are well-formed UTF-8. *)
Fixpoint utf8_decode (bs : list N) : str :=
  match bs with
  | [] => []
  | b :: r =>
    if (b <? 128)%N then b :: utf8_decode r
    else if (b <? 224)%N then
      match r with
      | c :: r' => ((b mod 32) * 64 + c mod 64)%N :: utf8_decode r'
      | _ => []
      end
    else if (b <? 240)%N then
      match r with
      | c :: d :: r' =>
        ((b mod 16) * 4096 + (c mod 64) * 64 + d mod 64)%N :: utf8_decode r'
      | _ => []
      end
    else
      match r with
      | c :: d :: e :: r' =>
        ((b mod 8) * 262144 + (c mod 64) * 4096 + (d mod 64) * 64 + e mod 64)%N
          :: utf8_decode r'
      | _ => []
      end
  end.

(** [u "..."] is the Python string written between the quotes. *)
Definition u (s : string) : str :=
  utf8_decode (map N_of_ascii (list_ascii_of_string s)).

Arguments u s%_string.

Definition LF : char := 10%N.
Definition dquote : char := 34%N.   (* the character U+0022 *)

Definition str_eq_dec : forall a b : str, {a = b} + {a <> b} :=
  list_eq_dec N.eq_dec.

Definition str_eqb (a b : str) : bool :=
  if str_eq_dec a b then true else false.

(** [len(s)] *)
Definition len {A} (l : list A) : Z := Z.of_nat (length l).

(** [str.isspace] on one character: the code points Python 3 treats as
    white space in [split()] and [strip()]. *)
Definition isspace (c : char) : bool :=
  ((9 <=? c) && (c <=? 13) || (28 <=? c) && (c <=? 32)
   || (c =? 133) || (c =? 160) || (c =? 5760)
   || (8192 <=? c) && (c <=? 8202) || (c =? 8232) || (c =? 8233)
   || (c =? 8239) || (c =? 8287) || (c =? 12288))%N.

(** The decimal digits of Unicode 14.0 (general category Nd), which [\d]
    matches on a [str] pattern: first code point of each run, and the length
    of the run. *)
Definition decimal_runs : list (N * N) :=
  [ (48, 10); (1632, 10); (1776, 10); (1984, 10); (2406, 10); (2534, 10);
    (2662, 10); (2790, 10); (2918, 10); (3046, 10); (3174, 10); (3302, 10);
    (3430, 10); (3558, 10); (3664, 10); (3792, 10); (3872, 10); (4160, 10);
    (4240, 10); (6112, 10); (6160, 10); (6470, 10); (6608, 10); (6784, 10);
    (6800, 10); (6992, 10); (7088, 10); (7232, 10); (7248, 10); (42528, 10);
    (43216, 10); (43264, 10); (43472, 10); (43504, 10); (43600, 10);
    (44016, 10); (65296, 10); (66720, 10); (68912, 10); (69734, 10);
    (69872, 10); (69942, 10); (70096, 10); (70384, 10); (70736, 10);
    (70864, 10); (71248, 10); (71360, 10); (71472, 10); (71904, 10);
    (72016, 10); (72784, 10); (73040, 10); (73120, 10); (92768, 10);
    (92864, 10); (93008, 10); (120782, 50); (123200, 10); (123632, 10);
    (125264, 10); (130032, 10) ]%N.

Definition isdecimal (c : char) : bool :=
  existsb (fun r => (fst r <=? c) && (c <? fst r + snd r))%N decimal_runs.

(** [s.split()]: maximal runs of characters that are not white space.
    [cur] holds the run being read, reversed. *)
Fixpoint split_ws_from (cur : str) (s : str) : list str :=
  match s with
  | [] => match cur with [] => [] | _ => [rev cur] end
  | c :: r =>
    if isspace c
    then match cur with
         | [] => split_ws_from [] r
         | _ => rev cur :: split_ws_from [] r
         end
    else split_ws_from (c :: cur) r
  end.

Definition split_ws (s : str) : list str := split_ws_from [] s.

(** [s.split(sep)] for a separator of one character: the pieces between
    the separators, empty pieces kept; [''.split('.')] is [['']]. *)
Fixpoint split_on_from (sep : char) (cur : str) (s : str) : list str :=
  match s with
  | [] => [rev cur]
  | c :: r =>
    if (c =? sep)%N then rev cur :: split_on_from sep [] r
    else split_on_from sep (c :: cur) r
  end.

Definition split_on (sep : char) (s : str) : list str :=
  split_on_from sep [] s.

(** [s.lstrip], [s.rstrip], [s.strip] with the characters to remove given
    by a predicate. *)
Fixpoint lstrip_by (p : char -> bool) (s : str) : str :=
  match s with
  | [] => []
  | c :: r => if p c then lstrip_by p r else s
  end.

Definition rstrip_by (p : char -> bool) (s : str) : str :=
  rev (lstrip_by p (rev s)).

Definition strip_by (p : char -> bool) (s : str) : str :=
  rstrip_by p (lstrip_by p s).

Definition one_of (chars : str) (c : char) : bool :=
  existsb (N.eqb c) chars.

(** [s.strip()] and [s.strip(chars)], [s.rstrip(chars)] *)
Definition strip_ws (s : str) : str := strip_by isspace s.
Definition strip (chars : str) (s : str) : str := strip_by (one_of chars) s.
Definition rstrip (chars : str) (s : str) : str := rstrip_by (one_of chars) s.

(** [s.startswith(p)] *)
Fixpoint startswith (p s : str) : bool :=
  match p, s with
  | [], _ => true
  | _ :: _, [] => false
  | a :: p', b :: s' => (a =? b)%N && startswith p' s'
  end.

(** [needle in s] *)
Fixpoint contains (needle s : str) : bool :=
  startswith needle s ||
  match s with
  | [] => false
  | _ :: r => contains needle r
  end.

(** [s.count(needle)]: occurrences from left to right that do not overlap.
    [skip] is the number of characters still covered by the last match. *)
Fixpoint count_from (needle s : str) (skip : nat) : nat :=
  match s with
  | [] => 0
  | _ :: r =>
    match skip with
    | S k => count_from needle r k
    | O =>
      if startswith needle s
      then S (count_from needle r (Nat.pred (length needle)))
      else count_from needle r 0
    end
  end.

Definition count (needle s : str) : Z :=
  match needle with
  | [] => len s + 1
  | _ => Z.of_nat (count_from needle s 0)
  end.

(** [len(re.findall(r'\d+', s))]: the number of maximal runs of digits.
    [in_run] says whether the previous character was a digit. *)
Fixpoint digit_runs (in_run : bool) (s : str) : nat :=
  match s with
  | [] => 0
  | c :: r =>
    if isdecimal c
    then (if in_run then 0 else 1) + digit_runs true r
    else digit_runs false r
  end.

Definition findall_digits (s : str) : Z := Z.of_nat (digit_runs false s).

(** [len(re.findall(r'\d{4}', s))]: matches of four digits in a row, taken
    from left to right without overlap.  [k] digits of the next match have
    been read. *)
Fixpoint four_digit_matches (k : nat) (s : str) : nat :=
  match s with
  | [] => 0
  | c :: r =>
    if isdecimal c
    then (if Nat.eqb k 3 then S (four_digit_matches 0 r)
          else four_digit_matches (S k) r)
    else four_digit_matches 0 r
  end.

Definition findall_4digits (s : str) : Z := Z.of_nat (four_digit_matches 0 s).

(** [sep.join(parts)] *)
Fixpoint join (sep : str) (parts : list str) : str :=
  match parts with
  | [] => []
  | [p] => p
  | p :: rest => p ++ sep ++ join sep rest
  end.

(** [s.replace(a, b)] for single characters *)
Definition replace_char (a b : char) (s : str) : str :=
  map (fun c => if (c =? a)%N then b else c) s.

(** ** Numbers *)

(** [str(n)] for an [int] *)
Fixpoint digits_of_uint (d : Decimal.uint) : str :=
  match d with
  | Decimal.Nil => []
  | Decimal.D0 r => 48%N :: digits_of_uint r
  | Decimal.D1 r => 49%N :: digits_of_uint r
  | Decimal.D2 r => 50%N :: digits_of_uint r
  | Decimal.D3 r => 51%N :: digits_of_uint r
  | Decimal.D4 r => 52%N :: digits_of_uint r
  | Decimal.D5 r => 53%N :: digits_of_uint r
  | Decimal.D6 r => 54%N :: digits_of_uint r
  | Decimal.D7 r => 55%N :: digits_of_uint r
  | Decimal.D8 r => 56%N :: digits_of_uint r
  | Decimal.D9 r => 57%N :: digits_of_uint r
  end.

Definition str_of_int (n : Z) : str :=
  match n with
  | Z0 => [48%N]
  | Zpos p => digits_of_uint (Pos.to_uint p)
  | Zneg p => 45%N :: digits_of_uint (Pos.to_uint p)
  end.

(** [int(s)] on a non-empty string of ASCII digits, the only strings the
    program converts; [None] stands for the [ValueError] of a string with
    another character, and for the strings outside this fragment. *)
Fixpoint int_of_digits (acc : Z) (s : str) : option Z :=
  match s with
  | [] => Some acc
  | c :: r =>
    if ((48 <=? c) && (c <=? 57))%N
    then int_of_digits (10 * acc + (Z.of_N c - 48)) r
    else None
  end.

Definition int_of_str (s : str) : option Z :=
  match s with
  | [] => None
  | _ => int_of_digits 0 s
  end.

(** [int(x)] for a float: truncation toward zero *)
Definition int_of_float (x : Q) : Z := Z.quot (Qnum x) (Zpos (Qden x)).

(** Rounding of an exact rational to the nearest integer, halves to even *)
Definition round_half_even (x : Q) : Z :=
  let n := Qnum x in
  let d := Zpos (Qden x) in
  let f := n / d in
  let r := n mod d in
  match 2 * r ?= d with
  | Lt => f
  | Gt => f + 1
  | Eq => if Z.even f then f else f + 1
  end.

(** [round(x, 1)] *)
Definition round1 (x : Q) : Q :=
  Qred (round_half_even (x * 10) # 10).

(** [a < b] and [a <= b] on floats *)
Definition Qltb (a b : Q) : bool := Qnum a * QDen b <? Qnum b * QDen a.
Definition Qleb (a b : Q) : bool := Qnum a * QDen b <=? Qnum b * QDen a.

(** [min(a, b)]: the first argument unless the second is smaller *)
Definition Qmin2 (a b : Q) : Q := if Qltb b a then b else a.

(** [a / b] in a branch where [b] is not zero *)
Definition truediv (a b : Z) : Q := Qred (inject_Z a / inject_Z b).

(** ** Counter *)

(** A [Counter] is a [dict]: keys in the order they were first inserted. *)
Definition counter := list (str * Z).

Fixpoint counter_add (k : str) (c : counter) : counter :=
  match c with
  | [] => [(k, 1)]
  | (k', n) :: r =>
    if str_eqb k k' then (k', n + 1) :: r else (k', n) :: counter_add k r
  end.

(** [Counter(iterable)] *)
Definition Counter (l : list str) : counter :=
  fold_left (fun c k => counter_add k c) l [].

(** [c[k]]: a missing key counts zero *)
Fixpoint counter_get (k : str) (c : counter) : Z :=
  match c with
  | [] => 0
  | (k', n) :: r => if str_eqb k k' then n else counter_get k r
  end.

(** [sorted(items, key=count, reverse=True)]: a stable sort, so that items
    of equal count keep the order they have in the dict.  An item goes in
    front of the first one whose count is not larger. *)
Fixpoint insert_desc (x : str * Z) (l : list (str * Z)) : list (str * Z) :=
  match l with
  | [] => [x]
  | y :: r => if snd y <=? snd x then x :: l else y :: insert_desc x r
  end.

Fixpoint sort_desc (l : list (str * Z)) : list (str * Z) :=
  match l with
  | [] => []
  | x :: r => insert_desc x (sort_desc r)
  end.

(** [c.most_common(n)] is [heapq.nlargest(n, c.items(), key=count)], which
    is [sorted(c.items(), key=count, reverse=True)[:n]]. *)
Definition most_common (n : nat) (c : counter) : list (str * Z) :=
  firstn n (sort_desc c).

(** [len(set(l))] *)
Definition distinct (l : list str) : Z := len (nodup str_eq_dec l).

(** ** Clock and random source *)

Record datetime := {
  dt_year : Z; dt_month : Z; dt_day : Z;
  dt_hour : Z; dt_minute : Z; dt_second : Z
}.

Definition pad2 (n : Z) : str :=
  if n <? 10 then 48%N :: str_of_int n else str_of_int n.

(** [t.strftime('%Y-%m-%d %H:%M:%S')] *)
Definition strftime (t : datetime) : str :=
  str_of_int (dt_year t) ++ u "-" ++ pad2 (dt_month t) ++ u "-"
  ++ pad2 (dt_day t) ++ u " " ++ pad2 (dt_hour t) ++ u ":"
  ++ pad2 (dt_minute t) ++ u ":" ++ pad2 (dt_second t).

(** The random source: a tape of naturals and a cursor.  Every sequence
    of choices the generator of the interpreter can make is the reading of
    some tape. *)
Record rng := { tape : nat -> nat; cursor : nat }.

Definition M (A : Type) : Type := rng -> A * rng.

Definition ret {A} (a : A) : M A := fun g => (a, g).

Definition bind {A B} (m : M A) (f : A -> M B) : M B :=
  fun g => let (a, g') := m g in f a g'.

(** A number below [n] (for [n > 0]) *)
Definition randbelow (n : nat) : M nat :=
  fun g => (Nat.modulo (tape g (cursor g)) n,
            {| tape := tape g; cursor := S (cursor g) |}).

(** [random.choice(seq)] on a sequence that is not empty; [d] is never
    returned then. *)
Definition choice {A} (d : A) (seq : list A) : M A :=
  bind (randbelow (length seq)) (fun i => ret (nth i seq d)).

Fixpoint remove_nth {A} (i : nat) (l : list A) : list A :=
  match i, l with
  | _, [] => []
  | O, _ :: r => r
  | S j, x :: r => x :: remove_nth j r
  end.

(** [random.sample(population, k)] for [k <= len(population)]: [k]
    elements at distinct positions, in the order they are drawn. *)
Fixpoint sample {A} (pool : list A) (k : nat) : M (list A) :=
  match k with
  | O => ret []
  | S k' =>
    match pool with
    | [] => ret []
    | d :: _ =>
      bind (randbelow (length pool)) (fun i =>
      bind (sample (remove_nth i pool) k') (fun rest =>
      ret (nth i pool d :: rest)))
    end
  end.

End Py.

Import Py.

Notation "x <- m ;; k" := (bind m (fun x => k))
  (at level 61, m at next level, right associativity).

(** A value as [jsonify] sees it: what the two entry points hand back. *)
#[warnings="-register-all"] Inductive pyval :=
| PNum (q : Q)
| PStr (s : str)
| PBool (b : bool)
| PTuple (l : list pyval)
| PList (l : list pyval)
| PDict (d : list (str * pyval)).

Definition PInt (n : Z) : pyval := PNum (inject_Z n).

(** The keys of a [dict], in order *)
Definition keys (v : pyval) : list str :=
  match v with
  | PDict d => map fst d
  | _ => []
  end.

(** * The reference dataset ([data/cities_landmarks.json])

    The records the generator reads.  A key the code reads by subscript is
    a field; a key it reads with [.get] is an optional field.  Texts are
    strings; the years and the statistics, which the data may hold as
    numbers, are [value]s. *)

Module Data.

(** A scalar of the dataset that the code both tests and prints: a JSON
    string, integer or boolean. *)
Inductive value :=
| VStr (s : str)
| VInt (n : Z)
| VBool (b : bool).

(** [str(v)], which an f-string puts in the text *)
Definition str_of_value (v : value) : str :=
  match v with
  | VStr s => s
  | VInt n => str_of_int n
  | VBool true => u "True"
  | VBool false => u "False"
  end.

(** The truth value of [v] in an [if] *)
Definition truthy (v : value) : bool :=
  match v with
  | VStr [] => false
  | VStr _ => true
  | VInt n => negb (n =? 0)
  | VBool b => b
  end.

(** The truth value of a string, and of a list *)
Definition nonempty {A} (l : list A) : bool :=
  match l with
  | [] => false
  | _ => true
  end.

(** [d.get(k)] in an [if]: a missing key gives [None], which is false *)
Definition truthy_get (o : option value) : bool :=
  match o with
  | Some v => truthy v
  | None => false
  end.

(** [d.get(k, default)] *)
Definition get {A} (o : option A) (default : A) : A :=
  match o with
  | Some a => a
  | None => default
  end.

(** [d.get(k)] on an assoc list standing for a [dict] *)
Fixpoint lookup {A} (k : str) (d : list (str * A)) : option A :=
  match d with
  | [] => None
  | (k', v) :: r => if str_eqb k k' then Some v else lookup k r
  end.

Record Story := {
  story_title : str;                      (* 'title' *)
  story_content : str;                    (* 'content' *)
  story_year : option value;              (* 'year' *)
  story_sources : option (list str);      (* 'sources' *)
  story_type : option str                 (* 'type' *)
}.

Record KeyLandmark := {
  kl_name : str;                          (* 'name' *)
  kl_year : option value;                 (* 'year' *)
  kl_description : str;                   (* 'description' *)
  kl_significance : option str            (* 'significance' *)
}.

Record Info := {
  unesco : option value;
  year_inscribed : option value;
  unesco_criteria : option str;
  inscription_name : option str;
  best_time : option str;
  duration : option str;
  entry_fee : option str;
  guided_tours : option str;
  age : option str
}.

(** The empty dict that [.get('info', {})] falls back to *)
Definition no_info : Info :=
  {| unesco := None; year_inscribed := None; unesco_criteria := None;
     inscription_name := None; best_time := None; duration := None;
     entry_fee := None; guided_tours := None; age := None |}.

Record Landmark := {
  lm_name : str;                                    (* 'name' *)
  lm_type : str;                                    (* 'type' *)
  lm_category : str;                                (* 'category' *)
  lm_description : str;                             (* 'description' *)
  lm_detailed_info : str;                           (* 'detailed_info' *)
  historical_significance : option str;
  archaeological_importance : option str;
  historical_development : option str;
  architectural_features : option (list (str * str));
  info : option Info;
  statistics : option (list (str * value));
  stories : option (list Story);
  key_landmarks : option (list KeyLandmark);
  journalist_angles : option (list str);
  field_questions : option (list str);
  cultural_notes : option (list str);
  references : option (list str)
}.

Record City := {
  city_name : str;                                  (* 'name' *)
  city_region : str;                                (* 'region' *)
  landmarks : list (str * Landmark)                 (* 'landmarks' *)
}.

(** [data['cities']] *)
Definition dataset := list (str * City).

End Data.

Import Data.

(** * [class ProfessionalScriptGenerator] *)

Module ProfessionalScriptGenerator.

(** The object [__init__] builds *)
Record t := {
  city : str;
  landmark : str;
  duration_seconds : Z;
  target_words : Z;
  city_data : City;
  landmark_data : Landmark
}.

(** [__init__]: the two subscripts raise [KeyError] on an unknown city or
    landmark, which is [None] here.  [target_words] is
    [int(duration_seconds * 2.5)]. *)
Definition init (data : dataset) (city landmark : str) (duration_seconds : Z)
  : option t :=
  match lookup city data with
  | None => None
  | Some cd =>
    match lookup landmark (landmarks cd) with
    | None => None
    | Some ld =>
      Some {| city := city; landmark := landmark;
              duration_seconds := duration_seconds;
              target_words := Z.quot (duration_seconds * 5) 2;
              city_data := cd; landmark_data := ld |}
    end
  end.

(** The dict [_analyze_script] returns *)
Record ScriptAnalysis := {
  sa_word_count : Z;
  sa_sentence_count : Z;
  sa_avg_sentence_length : Q;
  sa_readability : str;
  sa_most_common_words : list (str * Z);
  sa_paragraph_count : Z
}.

(** The dict under ['script'] that [generate] returns *)
Record Script := {
  title : str;
  full_text : str;
  sections : list (str * str);
  script_city : str;
  script_city_region : str;
  script_landmark : str;
  landmark_type : str;
  landmark_category : str;
  script_duration_seconds : Z;
  word_count : Z;
  char_count : Z;
  estimated_reading_time : str;
  generated_with : str;
  generated_at : str;
  script_field_questions : list str;
  script_cultural_notes : list str;
  script_stories : list Story;
  script_journalist_angles : list str;
  script_statistics : list (str * value);
  script_references : list str;
  script_key_landmarks : list KeyLandmark;
  analysis : ScriptAnalysis
}.

Definition NL2 : str := [LF; LF].

(** The characters [strip('.,!?؛:')] removes *)
Definition punctuation : str := u ".,!?؛:".

Section Methods.

(** [str.title] of the interpreter (it works from the case tables of its
    Unicode database) *)
Variable str_title : str -> str.

Variable self : t.

Let lm := landmark_data self.
Let cd := city_data self.
Let the_info := get (info lm) no_info.

Definition _generate_intro : M (str * str) :=
  let title_templates :=
    [ lm_name lm ++ u ": " ++ lm_category lm;
      lm_name lm ++ u " في " ++ city_name cd ++ u " - " ++ lm_description lm;
      u "تقرير: " ++ lm_name lm ++ u " - " ++ lm_type lm ] in
  title <- choice [] title_templates ;;
  let intro_templates :=
    [ u "في " ++ city_name cd ++ u "، " ++ city_region cd ++ u "، يقع "
        ++ lm_name lm ++ u "، " ++ lm_description lm ++ u ". "
        ++ lm_detailed_info lm;
      u "يُعد " ++ lm_name lm ++ u " أحد أبرز المعالم في " ++ city_name cd
        ++ u "، حيث " ++ lm_description lm ++ u ". " ++ lm_detailed_info lm;
      lm_name lm ++ u " - " ++ lm_category lm ++ u " - معلم استثنائي في "
        ++ city_name cd ++ u " " ++ lm_description lm ++ u ". "
        ++ lm_detailed_info lm ] in
  intro <- choice [] intro_templates ;;
  let intro :=
    if truthy_get (unesco the_info) then
      let year :=
        match year_inscribed the_info with
        | Some v => str_of_value v
        | None => u "غير محدد"
        end in
      let criteria := get (unesco_criteria the_info) [] in
      let unesco_name := get (inscription_name the_info) (lm_name lm) in
      let intro :=
        intro ++ u " الموقع مُدرج في قائمة التراث العالمي لليونسكو منذ عام "
          ++ year ++ u "م تحت اسم '" ++ unesco_name ++ u "'" in
      let intro :=
        if nonempty criteria then intro ++ u " وفقاً لـ" ++ criteria
        else intro in
      intro ++ u "."
    else intro in
  ret (title, intro).

Definition _generate_historical_context : str :=
  let historical := get (historical_significance lm) [] in
  if nonempty historical then historical
  else
    let age := get (age the_info) [] in
    if nonempty age
    then u "يعود تاريخ " ++ lm_name lm ++ u " إلى " ++ age
           ++ u "، مما يجعله شاهداً على حقب تاريخية متعددة."
    else historical.

Definition _generate_detailed_description : str :=
  let arch_features := get (architectural_features lm) [] in
  let parts :=
    if nonempty arch_features
    then u "من الناحية المعمارية:"
         :: map (fun fd => u "- " ++ str_title (replace_char 95%N 32%N (fst fd))
                             ++ u ": " ++ snd fd)
                (firstn 3 arch_features)
    else [] in
  let arch_importance := get (archaeological_importance lm) [] in
  let parts :=
    if nonempty arch_importance then parts ++ [arch_importance] else parts in
  let development := get (historical_development lm) [] in
  let parts :=
    if nonempty development then parts ++ [development] else parts in
  let parts :=
    if nonempty parts then parts else parts ++ [lm_detailed_info lm] in
  join NL2 parts.

Definition _generate_significance : str :=
  let hist_sig := get (historical_significance lm) [] in
  let parts :=
    if nonempty hist_sig then [u "تاريخياً: " ++ hist_sig] else [] in
  let parts :=
    if truthy_get (unesco the_info)
    then parts ++ [u "ثقافياً: يمثل " ++ lm_name lm
                     ++ u " قيمة عالمية استثنائية، كما أقرته منظمة اليونسكو."]
    else parts in
  let stats := get (statistics lm) [] in
  let parts :=
    match lookup (u "annual_visitors_2023") stats with
    | Some v =>
      if truthy v
      then parts ++ [u "اقتصادياً: استقبل الموقع " ++ str_of_value v
                       ++ u " زائر في 2023، مما يجعله محركاً اقتصادياً مهماً."]
      else parts
    | None => parts
    end in
  if nonempty parts then join NL2 parts else [].

Definition _format_story (story : Story) : str :=
  let formatted := story_content story in
  let formatted :=
    match story_year story with
    | Some y =>
      if truthy y
      then u "[" ++ str_of_value y ++ u "]" ++ NL2 ++ formatted
      else formatted
    | None => formatted
    end in
  let formatted :=
    let srcs := get (story_sources story) [] in
    if nonempty srcs
    then formatted ++ NL2 ++ u "المصادر: " ++ join (u ", ") (firstn 3 srcs)
    else formatted in
  let ty := get (story_type story) [] in
  if nonempty ty then formatted ++ NL2 ++ u "النوع: " ++ ty else formatted.

Definition format_key_landmark (k : KeyLandmark) : str :=
  let desc := u "• " ++ kl_name k in
  let desc :=
    match kl_year k with
    | Some y =>
      if truthy y then desc ++ u " (" ++ str_of_value y ++ u ")" else desc
    | None => desc
    end in
  let desc := desc ++ u ": " ++ kl_description k in
  let sig := get (kl_significance k) [] in
  if nonempty sig then desc ++ u " الأهمية: " ++ sig else desc.

Definition _generate_key_landmarks : M str :=
  let kls := get (key_landmarks lm) [] in
  match kls with
  | [] => ret []
  | _ =>
    let num :=
      Z.min (len kls) (Z.max 2 (Z.quot (duration_seconds self) 60)) in
    selected <- sample kls (Z.to_nat num) ;;
    ret (join NL2 (map format_key_landmark selected))
  end.

Definition _generate_statistics : str :=
  let stats := get (statistics lm) [] in
  match stats with
  | [] => []
  | _ =>
    join [LF]
      (u "الأرقام تتحدث:"
       :: map (fun kv => u "• " ++ str_title (replace_char 95%N 32%N (fst kv))
                           ++ u ": " ++ str_of_value (snd kv))
              stats)
  end.

(** [enumerate(selected, i)] rendered as ["{i}. {angle}"] *)
Fixpoint numbered (i : Z) (l : list str) : list str :=
  match l with
  | [] => []
  | a :: r => (str_of_int i ++ u ". " ++ a) :: numbered (i + 1) r
  end.

Definition _suggest_journalist_angles : M str :=
  let angles := get (journalist_angles lm) [] in
  match angles with
  | [] => ret []
  | _ =>
    let num := Z.min (len angles) 5 in
    selected <- sample angles (Z.to_nat num) ;;
    ret (join [LF] (u "زوايا صحفية مقترحة للتغطية:" :: numbered 1 selected))
  end.

Definition _generate_visit_info : str :=
  let line (label : str) (o : option str) : list str :=
    let v := get o [] in
    if nonempty v then [label ++ v] else [] in
  join [LF]
    ([u "معلومات عملية للزيارة:"]
     ++ line (u "• أفضل وقت: ") (best_time the_info)
     ++ line (u "• المدة المقترحة: ") (duration the_info)
     ++ line (u "• رسوم الدخول: ") (entry_fee the_info)
     ++ line (u "• الجولات المصحوبة: ") (guided_tours the_info)).

Definition _generate_conclusion : M str :=
  let conclusions :=
    [ u "يظل " ++ lm_name lm
        ++ u " شاهداً على عظمة التاريخ والحضارة، ومعلماً يستحق الزيارة والدراسة المعمقة.";
      u "بين الماضي والحاضر، يقف " ++ lm_name lm
        ++ u " كجسر يربط الأجيال، ويروي قصة " ++ city_name cd ++ u " العريقة.";
      u "يواصل " ++ lm_name lm
        ++ u " جذب الباحثين والزوار من مختلف أنحاء العالم، مؤكداً مكانته كأحد أهم المعالم في المملكة.";
      u "في عصر التحول والتطوير، يحافظ " ++ lm_name lm
        ++ u " على هويته التاريخية، مقدماً للعالم نموذجاً فريداً للحفاظ على التراث." ] in
  choice [] conclusions.

(** The sections are pairs (title, content). *)
Definition _build_full_script (sections : list (str * str)) : str :=
  join NL2
    (map snd
       (filter (fun s => negb (str_eqb (fst s) (u "العنوان"))) sections)).

Definition _analyze_script (script : str) : ScriptAnalysis :=
  let words := split_ws script in
  let sentences := split_on 46%N script in
  let word_count := len words in
  let sentence_count :=
    len (filter (fun s => nonempty (strip_ws s)) sentences) in
  let avg_sentence_length :=
    if 0 <? sentence_count then truediv word_count sentence_count else 0%Q in
  let word_freq :=
    Counter (map (strip punctuation) (filter (fun w => 3 <? len w) words)) in
  let most_common := most_common 10 word_freq in
  let readability :=
    if Qltb avg_sentence_length 15 then u "سهل"
    else if Qltb avg_sentence_length 25 then u "متوسط"
    else u "متقدم" in
  {| sa_word_count := word_count;
     sa_sentence_count := sentence_count;
     sa_avg_sentence_length := round1 avg_sentence_length;
     sa_readability := readability;
     sa_most_common_words := firstn 5 most_common;
     sa_paragraph_count := count NL2 script + 1 |}.

(** [now] is what [datetime.now()] reads when the result is built. *)
Definition generate (now : datetime) : M Script :=
  let d := duration_seconds self in
  (* 1 *)
  ti <- _generate_intro ;;
  let title := fst ti in
  let intro := snd ti in
  let script_sections := [(u "العنوان", title); (u "المقدمة", intro)] in
  (* 2 *)
  let script_sections :=
    if 90 <=? d
    then script_sections
           ++ [(u "الخلفية التاريخية", _generate_historical_context)]
    else script_sections in
  (* 3 *)
  let script_sections :=
    script_sections ++ [(u "الوصف التفصيلي", _generate_detailed_description)] in
  (* 4 *)
  let script_sections :=
    if 60 <=? d
    then script_sections ++ [(u "الأهمية والتفرد", _generate_significance)]
    else script_sections in
  (* 5 *)
  script_sections <-
    (if 120 <=? d then
       let stories := get (stories lm) [] in
       match stories with
       | [] => ret script_sections
       | s0 :: _ =>
         story <- choice s0 stories ;;
         ret (script_sections
                ++ [(u "قصة: " ++ story_title story, _format_story story)])
       end
     else ret script_sections) ;;
  (* 6 *)
  script_sections <-
    (if 90 <=? d then
       key_landmarks <- _generate_key_landmarks ;;
       ret (if nonempty key_landmarks
            then script_sections ++ [(u "المعالم البارزة", key_landmarks)]
            else script_sections)
     else ret script_sections) ;;
  (* 7 *)
  let script_sections :=
    if 150 <=? d then
      let stats := _generate_statistics in
      if nonempty stats
      then script_sections ++ [(u "أرقام وإحصائيات", stats)]
      else script_sections
    else script_sections in
  (* 8 *)
  script_sections <-
    (if 180 <=? d then
       angles <- _suggest_journalist_angles ;;
       ret (if nonempty angles
            then script_sections ++ [(u "زوايا صحفية مقترحة", angles)]
            else script_sections)
     else ret script_sections) ;;
  (* 9 *)
  let script_sections :=
    if 60 <=? d
    then script_sections ++ [(u "معلومات الزيارة", _generate_visit_info)]
    else script_sections in
  (* 10 *)
  conclusion <- _generate_conclusion ;;
  let script_sections := script_sections ++ [(u "الخاتمة", conclusion)] in
  let full_script := _build_full_script script_sections in
  let analysis := _analyze_script full_script in
  ret {| title := title;
         full_text := full_script;
         sections := script_sections;
         script_city := city_name cd;
         script_city_region := city_region cd;
         script_landmark := lm_name lm;
         landmark_type := lm_type lm;
         landmark_category := lm_category lm;
         script_duration_seconds := d;
         word_count := len (split_ws full_script);
         char_count := len full_script;
         estimated_reading_time :=
           str_of_int (int_of_float (truediv (len (split_ws full_script)) 150))
             ++ u " دقيقة";
         generated_with := u "Professional Journalist Generator";
         generated_at := strftime now;
         script_field_questions := get (field_questions lm) [];
         script_cultural_notes := get (cultural_notes lm) [];
         script_stories := get (stories lm) [];
         script_journalist_angles := get (journalist_angles lm) [];
         script_statistics := get (statistics lm) [];
         script_references := get (references lm) [];
         script_key_landmarks := get (key_landmarks lm) [];
         analysis := analysis |}.

End Methods.

(** The dict literal at the end of [_analyze_script] *)
Definition analysis_dict (a : ScriptAnalysis) : pyval :=
  PDict
    [ (u "word_count", PInt (sa_word_count a));
      (u "sentence_count", PInt (sa_sentence_count a));
      (u "avg_sentence_length", PNum (sa_avg_sentence_length a));
      (u "readability", PStr (sa_readability a));
      (u "most_common_words",
       PList (map (fun wc => PTuple [PStr (fst wc); PInt (snd wc)])
                  (sa_most_common_words a)));
      (u "paragraph_count", PInt (sa_paragraph_count a)) ].

End ProfessionalScriptGenerator.

(** * [class AdvancedScriptAnalyzer] *)

Module AdvancedScriptAnalyzer.

(** The object [__init__] builds *)
Record t := {
  script_text : str;
  words : list str;
  sentences : list str
}.

Definition init (script_text : str) : t :=
  {| script_text := script_text;
     words := split_ws script_text;
     sentences :=
       map strip_ws
         (filter (fun s => nonempty (strip_ws s)) (split_on 46%N script_text)) |}.

Record Basic := {
  word_count : Z;
  sentence_count : Z;
  char_count : Z;
  paragraph_count : Z;
  avg_sentence_length : Q;
  avg_word_length : Q;
  reading_time_minutes : Q;
  broadcast_time_seconds : Z
}.

Record Style := {
  style_type : str;
  journalist_score : Z;
  objectivity : str;
  uses_data : bool;
  numbers_count : Z;
  has_dates : bool;
  well_structured : bool;
  tone : str
}.

Record Content := {
  most_common_words : list (str * Z);   (* dicts {'word', 'count'} *)
  topics_covered : list str;
  has_quotes : bool;
  mentions_sources : bool;
  diversity_score : Q
}.

Record Recommendation := {
  rec_type : str;        (* 'type' *)
  priority : str;
  issue : str;
  suggestion : str
}.

Record OverallScore := {
  score : Q;
  rating : str;
  max_score : Z
}.

(** The dict under ['analysis'] that [analyze] returns *)
Record Analysis := {
  basic : Basic;
  style : Style;
  content : Content;
  recommendations : list Recommendation;
  overall_score : OverallScore;
  analyzed_at : str
}.

Definition NL2 : str := [LF; LF].

(** [sum(1 for word in lexicon if word in text)] *)
Definition matches (lexicon : list str) (text : str) : Z :=
  len (filter (fun word => contains word text) lexicon).

(** [any(word in text for word in lexicon)] *)
Definition any_in (lexicon : list str) (text : str) : bool :=
  existsb (fun word => contains word text) lexicon.

Definition sum_len (ws : list str) : Z :=
  fold_right (fun w acc => len w + acc) 0 ws.

Definition _basic_analysis (self : t) : Basic :=
  let word_count := len (words self) in
  let sentence_count := len (sentences self) in
  let char_count := len (script_text self) in
  let paragraph_count := count NL2 (script_text self) + 1 in
  let avg_sentence_length :=
    if 0 <? sentence_count then truediv word_count sentence_count else 0%Q in
  let avg_word_length :=
    if 0 <? word_count then truediv (sum_len (words self)) word_count
    else 0%Q in
  let reading_time := truediv word_count 150 in
  let broadcast_time := truediv (word_count * 2) 5 in   (* word_count / 2.5 *)
  {| word_count := word_count;
     sentence_count := sentence_count;
     char_count := char_count;
     paragraph_count := paragraph_count;
     avg_sentence_length := round1 avg_sentence_length;
     avg_word_length := round1 avg_word_length;
     reading_time_minutes := round1 reading_time;
     broadcast_time_seconds := int_of_float broadcast_time |}.

Definition formal_words : list str :=
  [u "يُعد"; u "تُعتبر"; u "يشير"; u "وفقاً"; u "حيث"; u "إذ"].

Definition informal_words : list str :=
  [u "رائع"; u "جميل"; u "مذهل"; u "خيالي"].

Definition _detect_tone (self : t) : str :=
  let formal_count := matches formal_words (script_text self) in
  let informal_count := matches informal_words (script_text self) in
  if informal_count * 2 <? formal_count then u "رسمي"
  else if formal_count <? informal_count then u "غير رسمي"
  else u "متوازن".

Definition journalist_indicators : list str :=
  [ u "يقع"; u "تقع"; u "يُعد"; u "تُعد"; u "يشير"; u "تشير"; u "وفقاً";
    u "حيث"; u "إذ"; u "بينما"; u "من جهة"; u "من ناحية"; u "تاريخياً";
    u "حالياً"; u "مستقبلاً"; u "المصادر"; u "التقارير"; u "الدراسات" ].

Definition personal_pronouns : list str :=
  [u "أنا"; u "نحن"; u "أشعر"; u "أرى"; u "أعتقد"].

(** [max(0, min(100, 100 - 10 * hits))] *)
Definition objectivity_score (text : str) : Z :=
  Z.max 0 (Z.min 100 (100 - matches personal_pronouns text * 10)).

Definition _style_analysis (self : t) : Style :=
  let text := script_text self in
  let journalist_score := matches journalist_indicators text in
  let numbers := findall_digits text in
  let has_dates := 0 <? findall_4digits text in
  let has_structure := 2 <=? count NL2 text in
  {| style_type := if 5 <=? journalist_score then u "إعلامي محترف" else u "عام";
     journalist_score := journalist_score;
     objectivity := str_of_int (objectivity_score text) ++ u "%";
     uses_data := 0 <? numbers;
     numbers_count := numbers;
     has_dates := has_dates;
     well_structured := has_structure;
     tone := _detect_tone self |}.

Definition punctuation : str := u ".,!?؛:".

(** The list [[w.strip('.,!?؛:') for w in self.words if len(w) > 3]] *)
Definition counted_tokens (self : t) : list str :=
  map (strip punctuation) (filter (fun w => 3 <? len w) (words self)).

(** [word_freq] of [_content_analysis] *)
Definition word_freq (self : t) : counter := Counter (counted_tokens self).

Definition topic_keywords : list (str * list str) :=
  [ (u "تاريخ", [u "تاريخ"; u "قديم"; u "عصر"; u "حقبة"; u "قرن"]);
    (u "ثقافة", [u "ثقافة"; u "تراث"; u "عمارة"; u "فن"]);
    (u "سياحة", [u "سياحة"; u "زوار"; u "زيارة"; u "جولة"]);
    (u "اقتصاد", [u "اقتصاد"; u "استثمار"; u "تنمية"; u "وظائف"]) ].

Definition source_words : list str :=
  [u "المصادر"; u "المرجع"; u "الدراسة"; u "التقرير"].

Definition _content_analysis (self : t) : Content :=
  let text := script_text self in
  let most_common := most_common 10 (word_freq self) in
  let topics :=
    map fst (filter (fun tk => any_in (snd tk) text) topic_keywords) in
  let has_quotes := contains [dquote] text || contains (u "'") text in
  let mentions_sources := any_in source_words text in
  {| most_common_words := firstn 5 most_common;
     topics_covered := topics;
     has_quotes := has_quotes;
     mentions_sources := mentions_sources;
     diversity_score :=
       if nonempty (words self)
       then truediv (distinct (words self)) (len (words self))
       else 0%Q |}.

(** [int(style['objectivity'].rstrip('%'))]; [None] is a [ValueError]. *)
Definition objectivity_percent (st : Style) : option Z :=
  int_of_str (rstrip (u "%") (objectivity st)).

(** The recommendations of [_generate_recommendations], in the order of
    its rules: 1 too short, 2 too long, 3 style, 4 objectivity, 5 data,
    6 sources, 7 structure, 8 sentence length; then the one appended when
    no rule fired. *)

Definition rec_too_short : Recommendation :=
  {| rec_type := u "الطول";
     priority := u "عالية";
     issue := u "السكريبت قصير جداً";
     suggestion :=
       u "أضف المزيد من التفاصيل والمعلومات الخلفية. السكريبت الإعلامي الجيد يتراوح بين 200-500 كلمة." |}.

Definition rec_too_long : Recommendation :=
  {| rec_type := u "الطول";
     priority := u "متوسطة";
     issue := u "السكريبت طويل قد يكون مملاً";
     suggestion :=
       u "حاول الاختصار والتركيز على النقاط الرئيسية. قسّم المحتوى إلى تقريرين منفصلين إذا لزم الأمر." |}.

Definition rec_style : Recommendation :=
  {| rec_type := u "الأسلوب";
     priority := u "عالية";
     issue := u "الأسلوب غير إعلامي بما يكفي";
     suggestion :=
       u "استخدم عبارات إعلامية احترافية مثل: "
       ++ [dquote]
       ++ u "وفقاً للمصادر"
       ++ [dquote]
       ++ u "، "
       ++ [dquote]
       ++ u "تشير التقارير"
       ++ [dquote]
       ++ u "، "
       ++ [dquote]
       ++ u "من الجدير بالذكر"
       ++ [dquote]
       ++ u ". تجنب الضمائر الشخصية." |}.

Definition rec_objectivity : Recommendation :=
  {| rec_type := u "الموضوعية";
     priority := u "عالية";
     issue := u "السكريبت يحتوي على آراء شخصية";
     suggestion :=
       u "حافظ على الحياد الصحفي. استبدل الآراء الشخصية بحقائق وبيانات موثقة." |}.

Definition rec_data : Recommendation :=
  {| rec_type := u "البيانات";
     priority := u "متوسطة";
     issue := u "عدم وجود أرقام أو إحصائيات";
     suggestion :=
       u "أضف أرقاماً وإحصائيات لدعم المعلومات. مثل: عدد الزوار، التكلفة، المساحة، التواريخ المحددة." |}.

Definition rec_sources : Recommendation :=
  {| rec_type := u "المصادر";
     priority := u "عالية";
     issue := u "عدم ذكر المصادر";
     suggestion :=
       u "اذكر مصادر المعلومات لزيادة المصداقية. مثل: "
       ++ [dquote]
       ++ u "وفقاً لتقرير اليونسكو"
       ++ [dquote]
       ++ u "، "
       ++ [dquote]
       ++ u "حسب بيانات الهيئة"
       ++ [dquote]
       ++ u "." |}.

Definition rec_structure : Recommendation :=
  {| rec_type := u "الهيكلة";
     priority := u "متوسطة";
     issue := u "السكريبت غير منظم في فقرات";
     suggestion :=
       u "قسّم السكريبت إلى فقرات واضحة: مقدمة، جسم (2-3 فقرات)، خاتمة." |}.

Definition rec_sentences : Recommendation :=
  {| rec_type := u "القراءة";
     priority := u "متوسطة";
     issue := u "الجمل طويلة جداً";
     suggestion :=
       u "اختصر الجمل لتكون أسهل في القراءة والفهم. الجملة المثالية: 15-20 كلمة." |}.

Definition rec_no_issues : Recommendation :=
  {| rec_type := u "عام";
     priority := u "معلومة";
     issue := u "لا توجد مشاكل كبيرة";
     suggestion :=
       u "السكريبت احترافي وجيد البناء. استمر على هذا المستوى!" |}.

Definition _generate_recommendations
    (basic : Basic) (style : Style) (content : Content)
  : option (list Recommendation) :=
  match objectivity_percent style with
  | None => None
  | Some objectivity =>
    let recommendations := [] in
    let recommendations :=
      if word_count basic <? 100 then recommendations ++ [rec_too_short]
      else if 600 <? word_count basic then recommendations ++ [rec_too_long]
      else recommendations in
    let recommendations :=
      if journalist_score style <? 3 then recommendations ++ [rec_style]
      else recommendations in
    let recommendations :=
      if objectivity <? 80 then recommendations ++ [rec_objectivity]
      else recommendations in
    let recommendations :=
      if negb (uses_data style) then recommendations ++ [rec_data]
      else recommendations in
    let recommendations :=
      if negb (mentions_sources content) then recommendations ++ [rec_sources]
      else recommendations in
    let recommendations :=
      if paragraph_count basic <? 3 then recommendations ++ [rec_structure]
      else recommendations in
    let recommendations :=
      if Qltb 25 (avg_sentence_length basic)
      then recommendations ++ [rec_sentences]
      else recommendations in
    Some (if nonempty recommendations then recommendations
          else recommendations ++ [rec_no_issues])
  end.

(** [rating] of [_calculate_overall_score] *)
Definition rating_of (score : Q) : str :=
  if Qleb 90 score then u "ممتاز"
  else if Qleb 75 score then u "جيد جداً"
  else if Qleb 60 score then u "جيد"
  else if Qleb 50 score then u "مقبول"
  else u "يحتاج تحسين".

(** The points [_calculate_overall_score] gives for the length *)
Definition length_points (wc : Z) : Q :=
  if (200 <=? wc) && (wc <=? 500) then 20%Q
  else if (150 <=? wc) && (wc <? 200) || (500 <? wc) && (wc <=? 600)
  then 15%Q
  else 10%Q.

(** The sum [_calculate_overall_score] builds before it rounds *)
Definition raw_score (basic : Basic) (style : Style) (content : Content)
    (objectivity : Z) : Q :=
  let score := length_points (word_count basic) in
  let score := (score + inject_Z (Z.min 25 (journalist_score style * 3)))%Q in
  let score := (score + inject_Z objectivity * (15 # 100))%Q in
  let score := if uses_data style then (score + 10)%Q else score in
  let score := if has_dates style then (score + 5)%Q else score in
  let score := if mentions_sources content then (score + 10)%Q else score in
  let score := if 3 <=? paragraph_count basic then (score + 5)%Q else score in
  let score := if well_structured style then (score + 5)%Q else score in
  (score + diversity_score content * 5)%Q.

Definition _calculate_overall_score
    (basic : Basic) (style : Style) (content : Content)
  : option OverallScore :=
  match objectivity_percent style with
  | None => None
  | Some objectivity =>
    let max_score := 100 in
    let score :=
      Qmin2 (inject_Z max_score)
            (round1 (raw_score basic style content objectivity)) in
    Some {| score := score; rating := rating_of score; max_score := max_score |}
  end.

(** [now] is what [datetime.now()] reads when the result is built. *)
Definition analyze (self : t) (now : datetime) : option Analysis :=
  let basic_analysis := _basic_analysis self in
  let style_analysis := _style_analysis self in
  let content_analysis := _content_analysis self in
  match _generate_recommendations basic_analysis style_analysis
          content_analysis with
  | None => None
  | Some recommendations =>
    match _calculate_overall_score basic_analysis style_analysis
            content_analysis with
    | None => None
    | Some overall_score =>
      Some {| basic := basic_analysis;
              style := style_analysis;
              content := content_analysis;
              recommendations := recommendations;
              overall_score := overall_score;
              analyzed_at := strftime now |}
    end
  end.

(** The dict literals of the [return] statements *)

Definition basic_dict (b : Basic) : pyval :=
  PDict
    [ (u "word_count", PInt (word_count b));
      (u "sentence_count", PInt (sentence_count b));
      (u "char_count", PInt (char_count b));
      (u "paragraph_count", PInt (paragraph_count b));
      (u "avg_sentence_length", PNum (avg_sentence_length b));
      (u "avg_word_length", PNum (avg_word_length b));
      (u "reading_time_minutes", PNum (reading_time_minutes b));
      (u "broadcast_time_seconds", PInt (broadcast_time_seconds b)) ].

Definition style_dict (s : Style) : pyval :=
  PDict
    [ (u "style_type", PStr (style_type s));
      (u "journalist_score", PInt (journalist_score s));
      (u "objectivity", PStr (objectivity s));
      (u "uses_data", PBool (uses_data s));
      (u "numbers_count", PInt (numbers_count s));
      (u "has_dates", PBool (has_dates s));
      (u "well_structured", PBool (well_structured s));
      (u "tone", PStr (tone s)) ].

Definition content_dict (c : Content) : pyval :=
  PDict
    [ (u "most_common_words",
       PList (map (fun wc => PDict [ (u "word", PStr (fst wc));
                                     (u "count", PInt (snd wc)) ])
                  (most_common_words c)));
      (u "topics_covered", PList (map PStr (topics_covered c)));
      (u "has_quotes", PBool (has_quotes c));
      (u "mentions_sources", PBool (mentions_sources c));
      (u "diversity_score", PNum (diversity_score c)) ].

Definition recommendation_dict (r : Recommendation) : pyval :=
  PDict
    [ (u "type", PStr (rec_type r));
      (u "priority", PStr (priority r));
      (u "issue", PStr (issue r));
      (u "suggestion", PStr (suggestion r)) ].

Definition score_dict (o : OverallScore) : pyval :=
  PDict
    [ (u "score", PNum (score o));
      (u "rating", PStr (rating o));
      (u "max_score", PInt (max_score o)) ].

Definition analysis_dict (a : Analysis) : pyval :=
  PDict
    [ (u "basic", basic_dict (basic a));
      (u "style", style_dict (style a));
      (u "content", content_dict (content a));
      (u "recommendations",
       PList (map recommendation_dict (recommendations a)));
      (u "overall_score", score_dict (overall_score a));
      (u "analyzed_at", PStr (analyzed_at a)) ].

(** What [analyze] returns *)
Definition result_dict (a : Analysis) : pyval :=
  PDict [ (u "success", PBool true); (u "analysis", analysis_dict a) ].

End AdvancedScriptAnalyzer.

Module PSG := ProfessionalScriptGenerator.
Module ASA := AdvancedScriptAnalyzer.

(** * Notions the statements below use *)

(** [w] occurs in [t] as a substring: some characters, then [w], then
    the rest of [t]. *)
Definition substring (w t : str) : Prop := exists p q, t = p ++ w ++ q.

(** Position of the first occurrence of [k] in [l] ([length l] when
    there is none) *)
Fixpoint first_index (k : str) (l : list str) : nat :=
  match l with
  | [] => 0
  | x :: r => if str_eqb k x then 0 else S (first_index k r)
  end.

(** Number of occurrences of [w] in [toks] *)
Definition occurrences (w : str) (toks : list str) : Z :=
  len (filter (str_eqb w) toks).

(** [a] comes before [b] in a ranking of the tokens [toks] by decreasing
    frequency, ties going to the token that occurs first. *)
Definition ranks_before (toks : list str) (a b : str) : Prop :=
  occurrences b toks < occurrences a toks \/
  (occurrences a toks = occurrences b toks /\
   (first_index a toks < first_index b toks)%nat).

(** The order a stable sort by decreasing count leaves two items in,
    when [lt] is the order they had before. *)
Definition before (lt : str * Z -> str * Z -> Prop) (a b : str * Z) : Prop :=
  snd b < snd a \/ (snd a = snd b /\ lt a b).

(** The frequency table read word for word from the specification: the
    tokens of the text with their trailing punctuation removed, those
    longer than three characters counted. *)
Definition spec_word_freq (text : str) : counter :=
  Counter
    (filter (fun w => 3 <? len w)
       (map (rstrip AdvancedScriptAnalyzer.punctuation) (split_ws text))).

(** * A city and a landmark to run the program on *)

Module Sample.

(** [str.title] on a string whose cased characters are ASCII letters *)
Fixpoint title_from (prev_cased : bool) (s : str) : str :=
  match s with
  | [] => []
  | c :: r =>
    let upper := ((65 <=? c) && (c <=? 90))%N in
    let lower := ((97 <=? c) && (c <=? 122))%N in
    (if prev_cased then (if upper then c + 32 else c)
     else (if lower then c - 32 else c))%N
      :: title_from (upper || lower) r
  end.

Definition title_ascii (s : str) : str := title_from false s.

Definition masmak : Landmark :=
  {| lm_name := u "قصر المصمك";
     lm_type := u "قلعة تاريخية";
     lm_category := u "تراث وطني";
     lm_description := u "حصن من الطين في قلب الرياض";
     lm_detailed_info := u "شُيّد القصر في القرن التاسع عشر.";
     historical_significance := Some (u "شهد القصر استعادة الرياض.");
     archaeological_importance := None;
     historical_development := None;
     architectural_features :=
       Some [ (u "main_gate", u "بوابة من جذوع النخل");
              (u "towers", u "أربعة أبراج") ];
     info :=
       Some {| unesco := None; year_inscribed := None;
               unesco_criteria := None; inscription_name := None;
               best_time := Some (u "الشتاء"); duration := None;
               entry_fee := Some (u "مجاني"); guided_tours := None;
               age := Some (u "عام 1865") |};
     statistics := Some [ (u "annual_visitors_2023", VInt 250000) ];
     stories :=
       Some [ {| story_title := u "فتح الرياض";
                 story_content := u "دخل الملك عبدالعزيز القصر فجراً.";
                 story_year := Some (VInt 1902);
                 story_sources := Some [u "دارة الملك عبدالعزيز"];
                 story_type := None |} ];
     key_landmarks :=
       Some [ {| kl_name := u "البوابة"; kl_year := None;
                 kl_description := u "مدخل القصر";
                 kl_significance := None |};
              {| kl_name := u "المسجد"; kl_year := Some (VInt 1865);
                 kl_description := u "مصلى القصر";
                 kl_significance := Some (u "أقدم أجزاء المبنى") |};
              {| kl_name := u "البئر"; kl_year := None;
                 kl_description := u "بئر الفناء";
                 kl_significance := None |} ];
     journalist_angles := Some [u "الترميم"; u "الزوار"; u "الذاكرة"];
     field_questions := None;
     cultural_notes := None;
     references := None |}.

Definition riyadh : City :=
  {| city_name := u "الرياض";
     city_region := u "منطقة الرياض";
     landmarks := [(u "masmak", masmak)] |}.

Definition data : dataset := [(u "riyadh", riyadh)].

Definition clock : datetime :=
  {| dt_year := 2024; dt_month := 3; dt_day := 9;
     dt_hour := 12; dt_minute := 0; dt_second := 5 |}.

Definition clock' : datetime :=
  {| dt_year := 2024; dt_month := 3; dt_day := 9;
     dt_hour := 12; dt_minute := 0; dt_second := 6 |}.

(** A tape: the [n]-th draw is [n + 1] *)
Definition dice : rng := {| tape := S; cursor := 0 |}.

(** The generator object for a script of [d] seconds *)
Definition generator (d : Z) : ProfessionalScriptGenerator.t :=
  {| ProfessionalScriptGenerator.city := u "riyadh";
     ProfessionalScriptGenerator.landmark := u "masmak";
     ProfessionalScriptGenerator.duration_seconds := d;
     ProfessionalScriptGenerator.target_words := Z.quot (d * 5) 2;
     ProfessionalScriptGenerator.city_data := riyadh;
     ProfessionalScriptGenerator.landmark_data := masmak |}.

End Sample.

(** * Notions for the further properties *)

(** The eight recommendations a rule can append, in the order of the
    rules *)
Definition rule_order : list AdvancedScriptAnalyzer.Recommendation :=
  [ AdvancedScriptAnalyzer.rec_too_short; AdvancedScriptAnalyzer.rec_too_long;
    AdvancedScriptAnalyzer.rec_style; AdvancedScriptAnalyzer.rec_objectivity;
    AdvancedScriptAnalyzer.rec_data; AdvancedScriptAnalyzer.rec_sources;
    AdvancedScriptAnalyzer.rec_structure; AdvancedScriptAnalyzer.rec_sentences ].

(** Equality of two recommendations, field by field *)
Definition rec_eqb (a b : AdvancedScriptAnalyzer.Recommendation) : bool :=
  str_eqb (AdvancedScriptAnalyzer.rec_type a) (AdvancedScriptAnalyzer.rec_type b)
  && str_eqb (AdvancedScriptAnalyzer.priority a) (AdvancedScriptAnalyzer.priority b)
  && str_eqb (AdvancedScriptAnalyzer.issue a) (AdvancedScriptAnalyzer.issue b)
  && str_eqb (AdvancedScriptAnalyzer.suggestion a)
             (AdvancedScriptAnalyzer.suggestion b).

(** What one rule appends: its recommendation when its condition holds *)
Definition fired (c : bool) (r : AdvancedScriptAnalyzer.Recommendation)
  : list AdvancedScriptAnalyzer.Recommendation :=
  if c then [r] else [].

(** The list the eight rules build, from their eight conditions; the
    second rule is the [elif] of the first. *)
Definition fired_rules (c1 c2 c3 c4 c5 c6 c7 c8 : bool)
  : list AdvancedScriptAnalyzer.Recommendation :=
  fired c1 AdvancedScriptAnalyzer.rec_too_short
  ++ fired (negb c1 && c2) AdvancedScriptAnalyzer.rec_too_long
  ++ fired c3 AdvancedScriptAnalyzer.rec_style
  ++ fired c4 AdvancedScriptAnalyzer.rec_objectivity
  ++ fired c5 AdvancedScriptAnalyzer.rec_data
  ++ fired c6 AdvancedScriptAnalyzer.rec_sources
  ++ fired c7 AdvancedScriptAnalyzer.rec_structure
  ++ fired c8 AdvancedScriptAnalyzer.rec_sentences.

(** A script of thirteen one-sentence paragraphs that no rule objects to *)
Definition clean_text : str :=
  join [LF; LF]
    (repeat (u "يقع القصر حيث تشير المصادر إلى عام 1865.") 13).

(** * Facts about the runtime model *)

(** The model run on the cases that set Python's functions apart *)

Example split_drops_empty_pieces :
  split_ws (u "  ab  cd e ") = [u "ab"; u "cd"; u "e"].
Proof. reflexivity. Qed.

Example split_on_keeps_empty_pieces :
  split_on 46%N [] = [[]] /\ split_on 46%N (u "a.b..") = [u "a"; u "b"; []; []].
Proof. split; reflexivity. Qed.

Example strip_works_at_both_ends :
  strip (u ".,!?؛:") (u "..ab.c؛:") = u "ab.c" /\
  rstrip (u ".,!?؛:") (u "..ab.c؛:") = u "..ab.c".
Proof. split; reflexivity. Qed.

Example count_does_not_overlap : count [LF; LF] [LF; LF; LF; LF; LF] = 2.
Proof. reflexivity. Qed.

Example findall_counts_runs :
  findall_digits (u "a12 b3 4567890") = 3 /\
  findall_4digits (u "a12 b3 4567890123") = 2.
Proof. split; reflexivity. Qed.

Example round1_halves_go_to_even :
  round1 (1 # 4) = (1 # 5)%Q /\ round1 (3 # 4) = (4 # 5)%Q /\ round1 0 = 0%Q.
Proof. repeat split; reflexivity. Qed.

Example most_common_keeps_first_seen_order :
  most_common 3 (Counter [u "a"; u "b"; u "a"; u "c"; u "b"; u "d"]) =
    [(u "a", 2); (u "b", 2); (u "c", 1)].
Proof. reflexivity. Qed.

Example strftime_pads :
  strftime Sample.clock = u "2024-03-09 12:00:05".
Proof. reflexivity. Qed.

Example generator_init_looks_up :
  PSG.init Sample.data (u "riyadh") (u "masmak") 30 = Some (Sample.generator 30)
  /\ PSG.init Sample.data (u "riyadh") (u "nowhere") 30 = None.
Proof. split; reflexivity. Qed.

Lemma str_eqb_eq a b : str_eqb a b = true <-> a = b.
Proof. unfold str_eqb. destruct (str_eq_dec a b); split; congruence. Qed.

Lemma str_eqb_refl a : str_eqb a a = true.
Proof. now apply str_eqb_eq. Qed.

Lemma str_eqb_neq a b : str_eqb a b = false <-> a <> b.
Proof. unfold str_eqb. destruct (str_eq_dec a b); split; congruence. Qed.

Lemma len_app {A} (l m : list A) : len (l ++ m) = len l + len m.
Proof. unfold len. rewrite length_app. lia. Qed.

Lemma len_nonneg {A} (l : list A) : 0 <= len l.
Proof. unfold len. lia. Qed.

Lemma len_cons {A} (x : A) l : len (x :: l) = 1 + len l.
Proof. unfold len. simpl length. lia. Qed.

(** ** Counter *)

Lemma counter_get_add k k' c :
  counter_get k (counter_add k' c) =
  counter_get k c + (if str_eqb k k' then 1 else 0).
Proof.
  induction c as [|[k0 n] r IH]; simpl.
  - destruct (str_eqb k k'); lia.
  - destruct (str_eqb k' k0) eqn:E; simpl.
    + apply str_eqb_eq in E. subst k0.
      destruct (str_eqb k k'); lia.
    + destruct (str_eqb k k0) eqn:E0.
      * apply str_eqb_eq in E0. subst k0.
        destruct (str_eqb k k') eqn:E1; [|lia].
        apply str_eqb_eq in E1. subst k'. rewrite str_eqb_refl in E. discriminate.
      * apply IH.
Qed.

Lemma occurrences_app w l m :
  occurrences w (l ++ m) = occurrences w l + occurrences w m.
Proof. unfold occurrences. now rewrite filter_app, len_app. Qed.

Lemma occurrences_nonneg w l : 0 <= occurrences w l.
Proof. apply len_nonneg. Qed.

Lemma occurrences_pos w l : In w l <-> 0 < occurrences w l.
Proof.
  unfold occurrences. induction l as [|x r IH]; simpl.
  - unfold len; simpl. split; [tauto|lia].
  - destruct (str_eqb w x) eqn:E.
    + apply str_eqb_eq in E. subst. rewrite len_cons.
      pose proof (len_nonneg (filter (str_eqb x) r)). split; [lia|auto].
    + apply str_eqb_neq in E. rewrite <- IH. split; [intros [H|H]; congruence|auto].
Qed.

Lemma Counter_snoc l x : Counter (l ++ [x]) = counter_add x (Counter l).
Proof. unfold Counter. now rewrite fold_left_app. Qed.

Lemma counter_get_Counter k l : counter_get k (Counter l) = occurrences k l.
Proof.
  induction l as [|x l IH] using rev_ind.
  - reflexivity.
  - rewrite Counter_snoc, counter_get_add, IH, occurrences_app.
    f_equal. unfold occurrences. simpl. destruct (str_eqb k x); reflexivity.
Qed.

Lemma keys_counter_add k c :
  map fst (counter_add k c) =
  if existsb (str_eqb k) (map fst c) then map fst c else map fst c ++ [k].
Proof.
  induction c as [|[k0 n] r IH]; simpl; [reflexivity|].
  destruct (str_eqb k k0) eqn:E; simpl; [reflexivity|].
  rewrite IH. now destruct (existsb (str_eqb k) (map fst r)).
Qed.

Lemma existsb_str_eqb k l : existsb (str_eqb k) l = true <-> In k l.
Proof.
  rewrite existsb_exists. split.
  - intros [x [Hin E]]. apply str_eqb_eq in E. now subst.
  - intros H. exists k. split; [assumption|apply str_eqb_refl].
Qed.

Lemma keys_Counter_In l : forall k, In k (map fst (Counter l)) <-> In k l.
Proof.
  induction l as [|x l IH] using rev_ind; intros k.
  - simpl. tauto.
  - rewrite Counter_snoc, keys_counter_add, in_app_iff. simpl.
    destruct (existsb (str_eqb x) (map fst (Counter l))) eqn:E.
    + apply existsb_str_eqb, IH in E. rewrite IH.
      split; [tauto|]. intros [H|[H|[]]]; [assumption|now subst].
    + rewrite in_app_iff, IH. simpl. tauto.
Qed.

Lemma keys_Counter_NoDup l : NoDup (map fst (Counter l)).
Proof.
  induction l as [|x l IH] using rev_ind.
  - constructor.
  - rewrite Counter_snoc, keys_counter_add.
    destruct (existsb (str_eqb x) (map fst (Counter l))) eqn:E; [assumption|].
    apply NoDup_app; [assumption|repeat constructor; simpl; tauto|].
    intros a Ha [Hb|[]]. subst a.
    apply existsb_str_eqb in Ha. congruence.
Qed.

Lemma counter_get_In k n c :
  NoDup (map fst c) -> In (k, n) c -> counter_get k c = n.
Proof.
  induction c as [|[k0 n0] r IH]; simpl; [tauto|].
  intros Hnd [H|H].
  - inversion H; subst. now rewrite str_eqb_refl.
  - inversion Hnd; subst. destruct (str_eqb k k0) eqn:E.
    + apply str_eqb_eq in E. subst k0. exfalso. apply H2.
      change k with (fst (k, n)). now apply in_map.
    + now apply IH.
Qed.

Lemma Counter_entry k n l : In (k, n) (Counter l) -> In k l /\ n = occurrences k l.
Proof.
  intros H. split.
  - apply keys_Counter_In. change k with (fst (k, n)). now apply in_map.
  - rewrite <- counter_get_Counter. symmetry.
    apply counter_get_In; [apply keys_Counter_NoDup|assumption].
Qed.

(** ** Order of first occurrence *)

Lemma first_index_lt k l : In k l -> (first_index k l < length l)%nat.
Proof.
  induction l as [|x r IH]; simpl; [tauto|].
  destruct (str_eqb k x) eqn:E; [lia|].
  apply str_eqb_neq in E. intros [H|H]; [congruence|]. specialize (IH H). lia.
Qed.

Lemma first_index_app_In k l m :
  In k l -> first_index k (l ++ m) = first_index k l.
Proof.
  induction l as [|x r IH]; simpl; [tauto|].
  destruct (str_eqb k x) eqn:E; [reflexivity|].
  apply str_eqb_neq in E. intros [H|H]; [congruence|]. now rewrite IH.
Qed.

Lemma first_index_app_notin k l m :
  ~ In k l -> first_index k (l ++ m) = (length l + first_index k m)%nat.
Proof.
  induction l as [|x r IH]; simpl; [reflexivity|].
  intros H. destruct (str_eqb k x) eqn:E.
  - apply str_eqb_eq in E. subst. tauto.
  - rewrite IH; tauto.
Qed.

Section Sorted_facts.
Context {A : Type}.

Lemma StronglySorted_weaken (R R' : A -> A -> Prop) l :
  (forall a b, In a l -> In b l -> R a b -> R' a b) ->
  StronglySorted R l -> StronglySorted R' l.
Proof.
  induction l as [|x r IH]; intros Himp Hs; [constructor|].
  inversion Hs as [|? ? Hr Hx]; subst. constructor.
  - apply IH; [|assumption]. intros a b Ha Hb. apply Himp; now right.
  - rewrite Forall_forall in *. intros b Hb.
    apply Himp; [now left|now right|now apply Hx].
Qed.

Lemma StronglySorted_snoc (R : A -> A -> Prop) l x :
  StronglySorted R l -> Forall (fun a => R a x) l -> StronglySorted R (l ++ [x]).
Proof.
  induction l as [|y r IH]; simpl; intros Hs Hf.
  - repeat constructor.
  - inversion Hs; subst. inversion Hf; subst. constructor; [now apply IH|].
    apply Forall_app. split; [assumption|now constructor].
Qed.

Lemma StronglySorted_app_inv (R : A -> A -> Prop) l m :
  StronglySorted R (l ++ m) ->
  StronglySorted R l /\ StronglySorted R m /\
  (forall a b, In a l -> In b m -> R a b).
Proof.
  induction l as [|x r IH]; simpl; intros Hs.
  - repeat split; [constructor|assumption|intros ? ? []].
  - inversion Hs as [|? ? Hr Hx]; subst.
    destruct (IH Hr) as [H1 [H2 H3]].
    apply Forall_app in Hx. destruct Hx as [Hx1 Hx2].
    repeat split; [now constructor|assumption|].
    intros a b [Ha|Ha] Hb.
    + subst a. rewrite Forall_forall in Hx2. now apply Hx2.
    + now apply H3.
Qed.

Lemma StronglySorted_map {B} (f : A -> B) (R : A -> A -> Prop)
    (R' : B -> B -> Prop) l :
  (forall a b, In a l -> In b l -> R a b -> R' (f a) (f b)) ->
  StronglySorted R l -> StronglySorted R' (map f l).
Proof.
  induction l as [|x r IH]; intros Himp Hs; simpl; [constructor|].
  inversion Hs as [|? ? Hr Hx]; subst. constructor.
  - apply IH; [|assumption]. intros a b Ha Hb. apply Himp; now right.
  - rewrite Forall_forall in *. intros b Hb.
    apply in_map_iff in Hb. destruct Hb as [b' [<- Hb']].
    apply Himp; [now left|now right|now apply Hx].
Qed.

End Sorted_facts.

(** The keys of a Counter stand in the order of their first occurrence. *)
Lemma keys_Counter_order l :
  StronglySorted (fun a b => (first_index a l < first_index b l)%nat)
    (map fst (Counter l)).
Proof.
  induction l as [|x l IH] using rev_ind.
  - constructor.
  - rewrite Counter_snoc, keys_counter_add.
    destruct (existsb (str_eqb x) (map fst (Counter l))) eqn:E.
    + eapply StronglySorted_weaken; [|exact IH].
      intros a b Ha Hb Hab. rewrite keys_Counter_In in Ha, Hb.
      now rewrite !first_index_app_In by assumption.
    + apply StronglySorted_snoc.
      * eapply StronglySorted_weaken; [|exact IH].
        intros a b Ha Hb Hab. rewrite keys_Counter_In in Ha, Hb.
        now rewrite !first_index_app_In by assumption.
      * apply Forall_forall. intros a Ha. rewrite keys_Counter_In in Ha.
        rewrite first_index_app_In by assumption.
        rewrite first_index_app_notin.
        -- pose proof (first_index_lt _ _ Ha). lia.
        -- intros Hx. rewrite <- keys_Counter_In, <- existsb_str_eqb in Hx. congruence.
Qed.

(** ** The stable sort by decreasing count *)

Section Sort_desc.

(** [lt]: the order the items have before the sort *)
Variable lt : str * Z -> str * Z -> Prop.

Lemma insert_desc_In x y l : In y (insert_desc x l) <-> y = x \/ In y l.
Proof.
  induction l as [|z r IH]; simpl.
  - intuition congruence.
  - destruct (snd z <=? snd x); simpl; [intuition congruence|].
    rewrite IH. intuition congruence.
Qed.

Lemma insert_desc_perm x l : Permutation (insert_desc x l) (x :: l).
Proof.
  induction l as [|z r IH]; simpl; [reflexivity|].
  destruct (snd z <=? snd x); [reflexivity|].
  rewrite IH. apply perm_swap.
Qed.

Lemma sort_desc_perm l : Permutation (sort_desc l) l.
Proof.
  induction l as [|x r IH]; simpl; [reflexivity|].
  rewrite insert_desc_perm. now constructor.
Qed.

Lemma insert_desc_sorted x l :
  StronglySorted (before lt) l -> Forall (lt x) l ->
  StronglySorted (before lt) (insert_desc x l).
Proof.
  induction l as [|y r IH]; simpl; intros Hs Hf.
  - repeat constructor.
  - inversion Hs as [|? ? Hr Hy]; subst. inversion Hf as [|? ? Hxy Hxr]; subst.
    destruct (snd y <=? snd x) eqn:E.
    + apply Z.leb_le in E. constructor; [assumption|].
      rewrite Forall_forall in *. intros z [Hz|Hz].
      * subst z. unfold before. destruct (Z.eq_dec (snd x) (snd y)); [right|left]; [tauto|lia].
      * assert (Hle : snd z <= snd y) by (destruct (Hy z Hz) as [H|[H _]]; lia).
        unfold before. destruct (Z.eq_dec (snd x) (snd z)); [right|left]; [|lia].
        split; [assumption|apply Hf; now right].
    + apply Z.leb_gt in E. constructor; [now apply IH|].
      rewrite Forall_forall in *. intros z Hz.
      apply insert_desc_In in Hz. destruct Hz as [->|Hz]; [left; assumption|now apply Hy].
Qed.

Lemma sort_desc_sorted l :
  StronglySorted lt l -> StronglySorted (before lt) (sort_desc l).
Proof.
  induction l as [|x r IH]; simpl; intros Hs; [constructor|].
  inversion Hs as [|? ? Hr Hx]; subst.
  apply insert_desc_sorted; [now apply IH|].
  rewrite Forall_forall in *. intros z Hz. apply Hx.
  eapply Permutation_in; [apply sort_desc_perm|assumption].
Qed.

End Sort_desc.

Lemma StronglySorted_of_map {A B} (f : A -> B) (R : B -> B -> Prop) l :
  StronglySorted R (map f l) -> StronglySorted (fun a b => R (f a) (f b)) l.
Proof.
  induction l as [|x r IH]; simpl; intros Hs; [constructor|].
  inversion Hs as [|? ? Hr Hx]; subst. constructor; [now apply IH|].
  rewrite Forall_forall in *. intros b Hb. apply Hx. now apply in_map.
Qed.

(** The items of [most_common n] of a Counter: what they are and how they
    are ordered. *)
Lemma most_common_Counter n toks :
  let r := most_common n (Counter toks) in
  length r = Nat.min n (length (nodup str_eq_dec toks)) /\
  (forall w c, In (w, c) r -> In w toks /\ c = occurrences w toks) /\
  StronglySorted (ranks_before toks) (map fst r) /\
  (forall w w', In w toks -> ~ In w (map fst r) -> In w' (map fst r) ->
                ranks_before toks w' w).
Proof.
  intros r. unfold most_common in r.
  set (c := Counter toks) in *.
  set (lt := fun a b : str * Z =>
               (first_index (fst a) toks < first_index (fst b) toks)%nat).
  assert (Hsorted : StronglySorted (before lt) (sort_desc c)).
  { apply sort_desc_sorted. unfold lt.
    apply (StronglySorted_of_map fst
             (fun a b => (first_index a toks < first_index b toks)%nat)).
    apply keys_Counter_order. }
  assert (Hentry : forall w k, In (w, k) (sort_desc c) ->
                               In w toks /\ k = occurrences w toks).
  { intros w k H. apply Counter_entry.
    eapply Permutation_in; [apply sort_desc_perm|exact H]. }
  assert (Hrank : forall a b, In a (sort_desc c) -> In b (sort_desc c) ->
                              before lt a b -> ranks_before toks (fst a) (fst b)).
  { intros [w k] [w' k'] Ha Hb Hab.
    destruct (Hentry _ _ Ha) as [_ ->]. destruct (Hentry _ _ Hb) as [_ ->].
    exact Hab. }
  rewrite <- (firstn_skipn n (sort_desc c)) in Hsorted.
  apply StronglySorted_app_inv in Hsorted.
  destruct Hsorted as [Hs1 [_ Hdom]]. fold r in Hs1, Hdom.
  assert (Hsub : forall a, In a r -> In a (sort_desc c)).
  { intros a Ha. rewrite <- (firstn_skipn n (sort_desc c)).
    apply in_or_app. now left. }
  repeat split.
  - unfold r. rewrite length_firstn.
    rewrite (Permutation_length (sort_desc_perm c)).
    rewrite <- (length_map fst c). f_equal.
    apply Permutation_length, NoDup_Permutation.
    + apply keys_Counter_NoDup.
    + apply NoDup_nodup.
    + intros k. unfold c. rewrite keys_Counter_In, nodup_In. tauto.
  - apply (Hentry w c0). now apply Hsub.
  - apply (Hentry w c0). now apply Hsub.
  - eapply StronglySorted_map; [|exact Hs1].
    intros a b Ha Hb. apply Hrank; now apply Hsub.
  - intros w w' Hw Hnot Hw'.
    apply in_map_iff in Hw'. destruct Hw' as [[w0 k'] [E Hin']].
    simpl in E. subst w0.
    assert (Hin : In (w, occurrences w toks) (sort_desc c)).
    { rewrite <- keys_Counter_In in Hw. fold c in Hw.
      apply in_map_iff in Hw. destruct Hw as [[w0 k] [E Hin]].
      simpl in E. subst w0.
      destruct (Counter_entry _ _ _ Hin) as [_ <-].
      eapply Permutation_in; [symmetry; apply sort_desc_perm|exact Hin]. }
    assert (Hskip : In (w, occurrences w toks) (skipn n (sort_desc c))).
    { rewrite <- (firstn_skipn n (sort_desc c)) in Hin.
      apply in_app_or in Hin. destruct Hin as [Hin|Hin]; [|assumption].
      exfalso. apply Hnot. change w with (fst (w, occurrences w toks)).
      now apply in_map. }
    apply (Hrank (w', k') (w, occurrences w toks));
      [now apply Hsub|assumption|now apply Hdom].
Qed.

Import AdvancedScriptAnalyzer.

(** ** Arithmetic of the float model *)

Lemma Qltb_lt a b : Qltb a b = true <-> (a < b)%Q.
Proof. unfold Qltb, Qlt. apply Z.ltb_lt. Qed.

Lemma Qleb_le a b : Qleb a b = true <-> (a <= b)%Q.
Proof. unfold Qleb, Qle. apply Z.leb_le. Qed.

Lemma Qmin2_upper a b : (Qmin2 a b <= a)%Q.
Proof.
  unfold Qmin2. destruct (Qltb b a) eqn:E.
  - apply Qltb_lt in E. now apply Qlt_le_weak.
  - apply Qle_refl.
Qed.

Lemma Qmin2_lower c a b : (c <= a)%Q -> (c <= b)%Q -> (c <= Qmin2 a b)%Q.
Proof. unfold Qmin2. now destruct (Qltb b a). Qed.

Lemma round_half_even_lower (k : Z) (x : Q) :
  (inject_Z k <= x)%Q -> k <= round_half_even x.
Proof.
  unfold Qle, round_half_even. destruct x as [n d].
  cbn [Qnum Qden inject_Z]. intros H.
  assert (Hf : k <= n / Z.pos d).
  { apply Z.div_le_lower_bound; lia. }
  cbv zeta.
  destruct (2 * (n mod Z.pos d) ?= Z.pos d); [destruct (Z.even _)|..]; lia.
Qed.

Lemma round1_lower (k : Z) (x : Q) :
  (inject_Z k <= x * 10)%Q -> (k # 10 <= round1 x)%Q.
Proof.
  intros H. apply round_half_even_lower in H.
  unfold round1. rewrite Qred_correct. unfold Qle. cbn [Qnum Qden]. lia.
Qed.

Lemma truediv_nonneg a b : 0 <= a -> 0 < b -> (0 <= truediv a b)%Q.
Proof.
  intros Ha Hb. unfold truediv. rewrite Qred_correct.
  apply Qle_shift_div_l.
  - replace 0%Q with (inject_Z 0) by reflexivity. rewrite <- Zlt_Qlt. exact Hb.
  - rewrite Qmult_0_l. replace 0%Q with (inject_Z 0) by reflexivity.
    rewrite <- Zle_Qle. exact Ha.
Qed.

(** ** The analyzer never raises *)


Lemma matches_bounds lexicon text : 0 <= matches lexicon text <= len lexicon.
Proof.
  unfold matches, len. split; [lia|].
  apply Nat2Z.inj_le, filter_length_le.
Qed.

Lemma objectivity_score_bounds text : 50 <= objectivity_score text <= 100.
Proof.
  unfold objectivity_score.
  pose proof (matches_bounds personal_pronouns text) as H.
  change (len personal_pronouns) with 5 in H. lia.
Qed.

Lemma objectivity_roundtrip text :
  objectivity_percent (_style_analysis (init text)) = Some (objectivity_score text).
Proof.
  unfold objectivity_percent, _style_analysis.
  cbn [objectivity script_text init]. unfold objectivity_score.
  pose proof (matches_bounds personal_pronouns text) as H.
  change (len personal_pronouns) with 5 in H.
  set (m := matches personal_pronouns text) in *.
  assert (Hm : m = 0 \/ m = 1 \/ m = 2 \/ m = 3 \/ m = 4 \/ m = 5) by lia.
  destruct Hm as [-> | [-> | [-> | [-> | [-> | ->]]]]]; reflexivity.
Qed.

Lemma analyze_total text now :
  exists recs sc,
    _generate_recommendations (_basic_analysis (init text))
      (_style_analysis (init text)) (_content_analysis (init text)) = Some recs /\
    _calculate_overall_score (_basic_analysis (init text))
      (_style_analysis (init text)) (_content_analysis (init text)) = Some sc /\
    analyze (init text) now =
      Some {| basic := _basic_analysis (init text);
              style := _style_analysis (init text);
              content := _content_analysis (init text);
              recommendations := recs;
              overall_score := sc;
              analyzed_at := strftime now |}.
Proof.
  unfold analyze, _generate_recommendations, _calculate_overall_score.
  rewrite objectivity_roundtrip. eexists. eexists.
  split; [reflexivity|]. split; reflexivity.
Qed.

Lemma length_points_lower wc : (10 <= length_points wc)%Q.
Proof.
  unfold length_points.
  destruct ((200 <=? wc) && (wc <=? 500));
    [|destruct ((150 <=? wc) && (wc <? 200) || (500 <? wc) && (wc <=? 600))];
    unfold Qle; simpl; lia.
Qed.

Lemma diversity_nonneg text :
  (0 <= diversity_score (_content_analysis (init text)))%Q.
Proof.
  unfold _content_analysis. cbn [diversity_score].
  destruct (words (init text)) as [|w ws]; cbn [nonempty]; [apply Qle_refl|].
  apply truediv_nonneg.
  - apply len_nonneg.
  - rewrite len_cons. pose proof (len_nonneg ws). lia.
Qed.

Lemma raw_score_lower basic style content objectivity :
  0 <= journalist_score style -> 50 <= objectivity ->
  (0 <= diversity_score content)%Q ->
  (35 # 2 <= raw_score basic style content objectivity)%Q.
Proof.
  intros Hj Ho Hd. unfold raw_score.
  pose proof (length_points_lower (word_count basic)) as Hl.
  assert (Hj' : (0 <= inject_Z (Z.min 25 (journalist_score style * 3)))%Q).
  { replace 0%Q with (inject_Z 0) by reflexivity. rewrite <- Zle_Qle. lia. }
  assert (Ho' : (50 <= inject_Z objectivity)%Q).
  { replace 50%Q with (inject_Z 50) by reflexivity. now rewrite <- Zle_Qle. }
  generalize dependent (length_points (word_count basic)).
  generalize dependent (inject_Z (Z.min 25 (journalist_score style * 3))).
  generalize dependent (inject_Z objectivity).
  generalize dependent (diversity_score content).
  intros dv Hd ob Hob js Hjs lp Hlp.
  destruct (uses_data style), (has_dates style), (mentions_sources content),
    (3 <=? paragraph_count basic), (well_structured style); lra.
Qed.

(** Bounds of the score [_calculate_overall_score] returns *)
Lemma overall_score_bounds text sc :
  _calculate_overall_score (_basic_analysis (init text))
    (_style_analysis (init text)) (_content_analysis (init text)) = Some sc ->
  (35 # 2 <= score sc)%Q /\ (score sc <= 100)%Q.
Proof.
  unfold _calculate_overall_score. rewrite objectivity_roundtrip.
  intros H. injection H as <-. cbn [score]. split.
  - apply Qmin2_lower; [unfold Qle; simpl; lia|].
    apply (Qle_trans _ (175 # 10)); [unfold Qle; simpl; lia|].
    apply round1_lower.
    assert (Hr := raw_score_lower (_basic_analysis (init text))
                    (_style_analysis (init text)) (_content_analysis (init text))
                    (objectivity_score text)).
    change (inject_Z 175) with (175 # 1)%Q.
    specialize (Hr (proj1 (matches_bounds _ _))
                   (proj1 (objectivity_score_bounds text))
                   (diversity_nonneg text)).
    lra.
  - apply Qmin2_upper.
Qed.

(** ** The generator *)

(** What [generate] puts in the result besides the sections *)
Lemma generate_result str_title self now g :
  let s := fst (PSG.generate str_title self now g) in
  PSG.full_text s = PSG._build_full_script (PSG.sections s) /\
  PSG.analysis s = PSG._analyze_script (PSG.full_text s) /\
  PSG.word_count s = len (split_ws (PSG.full_text s)) /\
  PSG.char_count s = len (PSG.full_text s).
Proof.
  cbv zeta. unfold PSG.generate, bind, ret.
  repeat match goal with
         | |- context [let (_, _) := ?m in _] => destruct m
         | |- context [if ?b then _ else _] => destruct b
         | |- context [match ?l with [] => _ | _ :: _ => _ end] => destruct l
         end; cbn [fst PSG.full_text PSG.analysis PSG.sections PSG.word_count PSG.char_count];
  repeat split.
Qed.

(** The fields the summary of [_analyze_script] shares with the analyzer *)
Lemma analyze_script_agrees text :
  let a := PSG._analyze_script text in
  let self := ASA.init text in
  PSG.sa_word_count a = ASA.word_count (ASA._basic_analysis self) /\
  PSG.sa_sentence_count a = ASA.sentence_count (ASA._basic_analysis self) /\
  PSG.sa_avg_sentence_length a =
    ASA.avg_sentence_length (ASA._basic_analysis self) /\
  PSG.sa_paragraph_count a = ASA.paragraph_count (ASA._basic_analysis self) /\
  PSG.sa_most_common_words a =
    ASA.most_common_words (ASA._content_analysis self).
Proof.
  cbv zeta. unfold PSG._analyze_script, ASA._basic_analysis, ASA._content_analysis.
  cbn [PSG.sa_word_count PSG.sa_sentence_count PSG.sa_avg_sentence_length
       PSG.sa_paragraph_count PSG.sa_most_common_words
       ASA.word_count ASA.sentence_count ASA.avg_sentence_length
       ASA.paragraph_count ASA.most_common_words
       ASA.words ASA.sentences ASA.script_text ASA.init].
  assert (E : len (map strip_ws
                     (filter (fun s => nonempty (strip_ws s)) (split_on 46%N text)))
              = len (filter (fun s => nonempty (strip_ws s)) (split_on 46%N text))).
  { unfold len. now rewrite length_map. }
  rewrite E. repeat split.
Qed.

(** A script shorter than a minute has the four sections that no
    duration gates. *)
Lemma generate_short str_title self now g :
  PSG.duration_seconds self < 60 ->
  exists title intro conclusion,
    PSG.sections (fst (PSG.generate str_title self now g)) =
      [ (u "العنوان", title); (u "المقدمة", intro);
        (u "الوصف التفصيلي", PSG._generate_detailed_description str_title self);
        (u "الخاتمة", conclusion) ].
Proof.
  intros Hd. unfold PSG.generate, bind, ret.
  destruct (Z.leb_spec 90 (PSG.duration_seconds self)); [lia|].
  destruct (Z.leb_spec 60 (PSG.duration_seconds self)); [lia|].
  destruct (Z.leb_spec 120 (PSG.duration_seconds self)); [lia|].
  destruct (Z.leb_spec 150 (PSG.duration_seconds self)); [lia|].
  destruct (Z.leb_spec 180 (PSG.duration_seconds self)); [lia|].
  destruct (PSG._generate_intro self g) as [[title intro] g1].
  destruct (PSG._generate_conclusion self g1) as [conclusion g2].
  cbn [fst snd PSG.sections app]. now exists title, intro, conclusion.
Qed.

Lemma filter_map_comm {A B} (f : A -> B) (p : B -> bool) l :
  filter p (map f l) = map f (filter (fun a => p (f a)) l).
Proof.
  induction l as [|x r IH]; simpl; [reflexivity|].
  destruct (p (f x)); simpl; now rewrite IH.
Qed.

Lemma filter_filter {A} (p q : A -> bool) l :
  filter p (filter q l) = filter (fun a => q a && p a) l.
Proof.
  induction l as [|x r IH]; simpl; [reflexivity|].
  destruct (q x); simpl; [destruct (p x)|]; now rewrite IH.
Qed.

(** ** Substrings *)

Lemma startswith_spec n s :
  startswith n s = true <-> exists q, s = n ++ q.
Proof.
  revert s. induction n as [|a n IH]; intros s; simpl.
  - split; [intros _; now exists s|reflexivity].
  - destruct s as [|b s].
    + split; [discriminate|intros [q H]; discriminate].
    + rewrite andb_true_iff, N.eqb_eq, IH. split.
      * intros [-> [q ->]]. now exists q.
      * intros [q H]. injection H as -> ->. split; [reflexivity|now exists q].
Qed.

Lemma contains_spec n s :
  contains n s = true <-> exists p q, s = p ++ n ++ q.
Proof.
  induction s as [|c s IH].
  - simpl. rewrite orb_false_r, startswith_spec. split.
    + intros [q H]. now exists [], q.
    + intros (p & q & H). destruct p; [now exists q|discriminate].
  - cbn [contains]. rewrite orb_true_iff, startswith_spec, IH. split.
    + intros [[q H]|(p & q & H)].
      * now exists [], q.
      * exists (c :: p), q. now rewrite H.
    + intros (p & q & H). destruct p as [|c' p].
      * left. now exists q.
      * right. injection H as -> ->. now exists p, q.
Qed.

Lemma contains_extend n t p q :
  contains n t = true -> contains n (p ++ t ++ q) = true.
Proof.
  rewrite !contains_spec. intros (a & b & ->).
  exists (p ++ a), (b ++ q). now rewrite <- !app_assoc.
Qed.

Lemma filter_length_mono {A} (f g : A -> bool) l :
  (forall x, f x = true -> g x = true) ->
  (length (filter f l) <= length (filter g l))%nat.
Proof.
  intros H. induction l as [|x r IH]; simpl; [lia|].
  destruct (f x) eqn:E.
  - rewrite (H x E). simpl. lia.
  - destruct (g x); simpl; lia.
Qed.

Lemma matches_extend lexicon t p q :
  matches lexicon t <= matches lexicon (p ++ t ++ q).
Proof.
  unfold matches, len. apply Nat2Z.inj_le, filter_length_mono.
  intros w. apply contains_extend.
Qed.

Lemma any_in_extend lexicon t p q :
  any_in lexicon t = true -> any_in lexicon (p ++ t ++ q) = true.
Proof.
  unfold any_in. rewrite !existsb_exists. intros (w & Hw & Hc).
  exists w. split; [assumption|now apply contains_extend].
Qed.

Lemma contains_substring w t : contains w t = true <-> substring w t.
Proof. apply contains_spec. Qed.

(** [matches] counts the entries of the lexicon that occur in the text,
    each entry once. *)
Lemma matches_counts_substrings lexicon text :
  NoDup lexicon ->
  exists hits,
    NoDup hits /\
    (forall w, In w hits <-> In w lexicon /\ substring w text) /\
    matches lexicon text = len hits.
Proof.
  intros Hnd. exists (filter (fun w => contains w text) lexicon).
  split; [now apply NoDup_filter|]. split; [|reflexivity].
  intros w. rewrite filter_In, contains_substring. tauto.
Qed.

Lemma NoDup_by_nodup (l : list str) : nodup str_eq_dec l = l -> NoDup l.
Proof. intros E. rewrite <- E. apply NoDup_nodup. Qed.

Lemma formal_words_NoDup : NoDup formal_words.
Proof. apply NoDup_by_nodup. vm_compute. reflexivity. Qed.

Lemma informal_words_NoDup : NoDup informal_words.
Proof. apply NoDup_by_nodup. vm_compute. reflexivity. Qed.

(** * The claims *)

(** C1 as stated fails: the analysis attached to a generated script is
    the six-entry summary of [_analyze_script]; it is neither the dict
    [analyze] returns for the full text nor the dict under its 'analysis'
    key. *)
Lemma C1_generate_does_not_run_the_analyzer :
  let s := fst (PSG.generate Sample.title_ascii (Sample.generator 200)
                  Sample.clock Sample.dice) in
  keys (PSG.analysis_dict (PSG.analysis s)) =
    [u "word_count"; u "sentence_count"; u "avg_sentence_length";
     u "readability"; u "most_common_words"; u "paragraph_count"] /\
  option_map (fun a => keys (ASA.analysis_dict a))
    (ASA.analyze (ASA.init (PSG.full_text s)) Sample.clock) =
    Some [u "basic"; u "style"; u "content"; u "recommendations";
          u "overall_score"; u "analyzed_at"] /\
  Some (PSG.analysis_dict (PSG.analysis s)) <>
    option_map ASA.result_dict
      (ASA.analyze (ASA.init (PSG.full_text s)) Sample.clock) /\
  Some (PSG.analysis_dict (PSG.analysis s)) <>
    option_map ASA.analysis_dict
      (ASA.analyze (ASA.init (PSG.full_text s)) Sample.clock).
Proof.
  cbv zeta. split; [vm_compute; reflexivity|].
  split; [vm_compute; reflexivity|].
  split; vm_compute; discriminate.
Qed.

(** C1 (amended): the analysis attached to the result of [generate] is
    [_analyze_script] run on the assembled full text: word, sentence and
    paragraph counts, average sentence length, a readability label and the
    five most common words.  Its counts, its average and its most common
    words are those the analyzer computes for the same text; it carries no
    style, content, recommendations or score. *)
Theorem C1_generate_attaches_the_summary str_title self now g :
  let s := fst (PSG.generate str_title self now g) in
  let an := ASA.init (PSG.full_text s) in
  PSG.analysis s = PSG._analyze_script (PSG.full_text s) /\
  PSG.full_text s = PSG._build_full_script (PSG.sections s) /\
  PSG.sa_word_count (PSG.analysis s) = ASA.word_count (ASA._basic_analysis an) /\
  PSG.sa_sentence_count (PSG.analysis s) =
    ASA.sentence_count (ASA._basic_analysis an) /\
  PSG.sa_avg_sentence_length (PSG.analysis s) =
    ASA.avg_sentence_length (ASA._basic_analysis an) /\
  PSG.sa_paragraph_count (PSG.analysis s) =
    ASA.paragraph_count (ASA._basic_analysis an) /\
  PSG.sa_most_common_words (PSG.analysis s) =
    ASA.most_common_words (ASA._content_analysis an) /\
  keys (PSG.analysis_dict (PSG.analysis s)) =
    [u "word_count"; u "sentence_count"; u "avg_sentence_length";
     u "readability"; u "most_common_words"; u "paragraph_count"].
Proof.
  cbv zeta.
  destruct (generate_result str_title self now g) as (Hf & Ha & _ & _).
  rewrite Ha.
  destruct (analyze_script_agrees
              (PSG.full_text (fst (PSG.generate str_title self now g))))
    as (H1 & H2 & H3 & H4 & H5).
  repeat split; assumption || reflexivity.
Qed.

(** C2 as stated fails: of six tokens that qualify, five are returned,
    where the ten most frequent would be all six. *)
Lemma C2_only_five_words_are_returned :
  let self := init (u "aaaa bbbb bbbb cccc dddd eeee ffff") in
  most_common 10 (word_freq self) =
    [(u "bbbb", 2); (u "aaaa", 1); (u "cccc", 1); (u "dddd", 1);
     (u "eeee", 1); (u "ffff", 1)] /\
  most_common_words (_content_analysis self) =
    [(u "bbbb", 2); (u "aaaa", 1); (u "cccc", 1); (u "dddd", 1); (u "eeee", 1)] /\
  most_common_words (_content_analysis self) <> most_common 10 (word_freq self).
Proof.
  cbv zeta. split; [vm_compute; reflexivity|].
  split; [vm_compute; reflexivity|]. vm_compute. discriminate.
Qed.

(** C2 (amended): the content analysis returns the 5 most frequent
    counted tokens (the first five of [most_common(10)]), each with its
    number of occurrences, ordered by decreasing frequency, ties going to
    the token that occurs first; every token left out ranks after every
    token returned. *)
Theorem C2_five_most_frequent_tokens text :
  let self := init text in
  let toks := counted_tokens self in
  let r := most_common_words (_content_analysis self) in
  r = firstn 5 (most_common 10 (word_freq self)) /\
  length r = Nat.min 5 (length (nodup str_eq_dec toks)) /\
  (forall w c, In (w, c) r -> In w toks /\ c = occurrences w toks) /\
  StronglySorted (ranks_before toks) (map fst r) /\
  (forall w w', In w toks -> ~ In w (map fst r) -> In w' (map fst r) ->
                ranks_before toks w' w).
Proof.
  cbv zeta.
  assert (E : most_common_words (_content_analysis (init text)) =
              most_common 5 (Counter (counted_tokens (init text)))).
  { unfold _content_analysis. cbn [most_common_words].
    unfold most_common, word_freq. now rewrite firstn_firstn. }
  split; [reflexivity|].
  rewrite E. apply (most_common_Counter 5).
Qed.

(** C3 as stated fails: the empty string has one paragraph, not none
    ([''.count('\n\n') + 1]). *)
Lemma C3_empty_text_paragraph_count_is_not_zero :
  ~ (let b := _basic_analysis (init []) in
     word_count b = 0 /\ sentence_count b = 0 /\ char_count b = 0 /\
     paragraph_count b = 0 /\ avg_sentence_length b = 0%Q /\
     avg_word_length b = 0%Q /\ reading_time_minutes b = 0%Q /\
     broadcast_time_seconds b = 0).
Proof. cbv zeta. intros (_ & _ & _ & H & _). vm_compute in H. discriminate. Qed.

(** C3 (amended): analyzing the empty string succeeds, and its basic
    metrics are all zero except [paragraph_count], which is 1. *)
Theorem C3_empty_text_basic_metrics now :
  exists a, analyze (init []) now = Some a /\
    basic a = _basic_analysis (init []) /\
    word_count (basic a) = 0 /\ sentence_count (basic a) = 0 /\
    char_count (basic a) = 0 /\ paragraph_count (basic a) = 1 /\
    avg_sentence_length (basic a) = 0%Q /\ avg_word_length (basic a) = 0%Q /\
    reading_time_minutes (basic a) = 0%Q /\ broadcast_time_seconds (basic a) = 0.
Proof.
  destruct (analyze_total [] now) as (recs & sc & _ & _ & H).
  eexists. split; [exact H|]. cbn [basic].
  repeat split; vm_compute; reflexivity.
Qed.

(** C4 as stated fails: on the empty string rule 3 (style) fires too,
    since the journalist score 0 is below 3. *)
Lemma C4_empty_text_rule_3_fires :
  _generate_recommendations (_basic_analysis (init []))
    (_style_analysis (init [])) (_content_analysis (init []))
  <> Some [rec_too_short; rec_data; rec_sources; rec_structure]
  /\ exists recs,
       _generate_recommendations (_basic_analysis (init []))
         (_style_analysis (init [])) (_content_analysis (init [])) = Some recs
       /\ In rec_style recs.
Proof.
  split.
  - vm_compute. discriminate.
  - eexists. split; [vm_compute; reflexivity|]. right. left. reflexivity.
Qed.

(** C4 (amended): for the empty string exactly rules 1, 3, 5, 6 and 7
    fire, in that order; rule 8 does not; the rating is "needs
    improvement" (the score is 25), with no word and no sentence. *)
Theorem C4_empty_text_recommendations now :
  exists a, analyze (init []) now = Some a /\
    recommendations a =
      [rec_too_short; rec_style; rec_data; rec_sources; rec_structure] /\
    ~ In rec_sentences (recommendations a) /\
    score (overall_score a) = 25%Q /\
    rating (overall_score a) = u "يحتاج تحسين" /\
    word_count (basic a) = 0 /\ sentence_count (basic a) = 0.
Proof.
  destruct (analyze_total [] now) as (recs & sc & Hr & Hs & H).
  vm_compute in Hr. injection Hr as <-.
  vm_compute in Hs. injection Hs as <-.
  eexists. split; [exact H|]. cbn [recommendations overall_score basic score rating].
  split; [reflexivity|]. split.
  - intros Hin. vm_compute in Hin.
    repeat (destruct Hin as [Hin|Hin]; [discriminate Hin|]). exact Hin.
  - repeat split; vm_compute; reflexivity.
Qed.

(** C5 as stated fails on both counts: the length test is made on the
    token as split, before any stripping ("ab.." is counted, as "ab"), and
    punctuation is removed from the front of the token as well (".abcd" is
    counted as "abcd"). *)
Lemma C5_length_is_tested_before_stripping_at_both_ends :
  word_freq (init (u "ab.. .abcd")) = [(u "ab", 1); (u "abcd", 1)] /\
  spec_word_freq (u "ab.. .abcd") = [(u ".abcd", 1)] /\
  word_freq (init (u "ab.. .abcd")) <> spec_word_freq (u "ab.. .abcd").
Proof.
  split; [vm_compute; reflexivity|].
  split; [vm_compute; reflexivity|]. vm_compute. discriminate.
Qed.

(** C5 (amended): the frequency table counts exactly the tokens of
    [split()] whose length as split exceeds 3, each under the key left
    when the punctuation characters are stripped from both of its ends. *)
Theorem C5_word_freq_counts text k :
  let self := init text in
  counter_get k (word_freq self) =
    len (filter (fun w => (3 <? len w) && str_eqb k (strip punctuation w))
           (split_ws text)) /\
  (In k (map fst (word_freq self)) <->
   exists w, In w (split_ws text) /\ 3 < len w /\ strip punctuation w = k) /\
  (forall n, In (k, n) (word_freq self) -> n = counter_get k (word_freq self)).
Proof.
  cbv zeta. unfold word_freq, counted_tokens. cbn [words init].
  split; [|split].
  - rewrite counter_get_Counter. unfold occurrences.
    rewrite filter_map_comm, filter_filter. unfold len. now rewrite length_map.
  - rewrite keys_Counter_In, in_map_iff. split.
    + intros (w & Hk & Hw). apply filter_In in Hw. destruct Hw as [Hw Hl].
      exists w. apply Z.ltb_lt in Hl. tauto.
    + intros (w & Hw & Hl & Hk). exists w. split; [assumption|].
      apply filter_In. split; [assumption|now apply Z.ltb_lt].
  - intros n Hin. rewrite counter_get_Counter.
    now apply Counter_entry in Hin.
Qed.

(** C6: with duration 30, whatever the landmark and whatever the random
    source draws, the script has exactly the title, the introduction, the
    detailed description and the conclusion, in that order. *)
Theorem C6_generate_30_has_four_sections
    str_title city landmark city_data landmark_data now g :
  let self :=
    {| PSG.city := city; PSG.landmark := landmark;
       PSG.duration_seconds := 30; PSG.target_words := 75;
       PSG.city_data := city_data; PSG.landmark_data := landmark_data |} in
  let s := fst (PSG.generate str_title self now g) in
  map fst (PSG.sections s) =
    [u "العنوان"; u "المقدمة"; u "الوصف التفصيلي"; u "الخاتمة"] /\
  exists title intro conclusion,
    PSG.sections s =
      [ (u "العنوان", title); (u "المقدمة", intro);
        (u "الوصف التفصيلي", PSG._generate_detailed_description str_title self);
        (u "الخاتمة", conclusion) ].
Proof.
  cbv zeta.
  match goal with
  | |- context [PSG.generate _ ?self _ _] =>
    destruct (generate_short str_title self now g) as (t & i & c & E);
      [cbn [PSG.duration_seconds]; lia|]
  end.
  rewrite E. split; [reflexivity|]. now exists t, i, c.
Qed.

(** C7: the tone is "formal" exactly when the formal count exceeds twice
    the informal count; "informal" exactly when it does not and the
    informal count exceeds the formal count; "balanced" otherwise, so
    whenever the two counts are equal.  The formal count is the number of
    entries of the formal lexicon that occur in the text as substrings
    (the length of any duplicate-free list of exactly those entries), and
    the informal count likewise for the informal lexicon; the two
    lexicons are the six and the four words written out. *)
Theorem C7_tone_classification text :
  let self := init text in
  formal_words =
    [u "يُعد"; u "تُعتبر"; u "يشير"; u "وفقاً"; u "حيث"; u "إذ"] /\
  informal_words = [u "رائع"; u "جميل"; u "مذهل"; u "خيالي"] /\
  exists formal_hits informal_hits,
    (NoDup formal_hits /\
     forall w, In w formal_hits <-> In w formal_words /\ substring w text) /\
    (NoDup informal_hits /\
     forall w, In w informal_hits <-> In w informal_words /\ substring w text) /\
    let formal_count := len formal_hits in
    let informal_count := len informal_hits in
    tone (_style_analysis self) = _detect_tone self /\
    (_detect_tone self = u "رسمي" <-> formal_count > 2 * informal_count) /\
    (_detect_tone self = u "غير رسمي" <->
       ~ formal_count > 2 * informal_count /\ informal_count > formal_count) /\
    (_detect_tone self = u "متوازن" <->
       ~ formal_count > 2 * informal_count /\ ~ informal_count > formal_count) /\
    (formal_count = informal_count -> _detect_tone self = u "متوازن").
Proof.
  cbv zeta.
  destruct (matches_counts_substrings formal_words text formal_words_NoDup)
    as (fh & Hfn & Hfm & Hfc).
  destruct (matches_counts_substrings informal_words text informal_words_NoDup)
    as (ih & Hin & Him & Hic).
  split; [reflexivity|]. split; [reflexivity|].
  exists fh, ih. split; [now split|]. split; [now split|].
  split; [reflexivity|].
  unfold _detect_tone. cbn [script_text init]. rewrite Hfc, Hic.
  pose proof (len_nonneg fh) as Hf. pose proof (len_nonneg ih) as Hi.
  set (fc := len fh) in *. set (ic := len ih) in *.
  assert (D1 : u "رسمي" <> u "غير رسمي") by (vm_compute; discriminate).
  assert (D2 : u "رسمي" <> u "متوازن") by (vm_compute; discriminate).
  assert (D3 : u "غير رسمي" <> u "متوازن") by (vm_compute; discriminate).
  destruct (Z.ltb_spec (ic * 2) fc); [|destruct (Z.ltb_spec fc ic)];
    repeat split; intros; try lia; try congruence; try reflexivity;
    try (exfalso; lia).
Qed.

(** C8: the objectivity percentage lies in [0, 100], and so does the
    overall score; the analysis returns both for every text. *)
Theorem C8_objectivity_and_score_in_range text now :
  exists a o, analyze (init text) now = Some a /\
    objectivity_percent (style a) = Some o /\
    objectivity (style a) = str_of_int o ++ u "%" /\
    0 <= o <= 100 /\
    (0 <= score (overall_score a))%Q /\ (score (overall_score a) <= 100)%Q.
Proof.
  destruct (analyze_total text now) as (recs & sc & _ & Hs & H).
  exists {| basic := _basic_analysis (init text);
            style := _style_analysis (init text);
            content := _content_analysis (init text);
            recommendations := recs; overall_score := sc;
            analyzed_at := strftime now |}, (objectivity_score text).
  cbn [style overall_score].
  destruct (overall_score_bounds text sc Hs) as [Hlo Hhi].
  pose proof (objectivity_score_bounds text).
  repeat split; try assumption; try lia.
  - apply objectivity_roundtrip.
  - apply (Qle_trans _ (35 # 2)); [unfold Qle; simpl; lia|assumption].
Qed.

(** C9 as stated fails: two runs on one text differ when the clock has
    moved, since the result carries the time of the run. *)
Lemma C9_analyze_depends_on_the_clock :
  analyze (init []) Sample.clock <> analyze (init []) Sample.clock'.
Proof. vm_compute. discriminate. Qed.

(** C9 (amended): two runs on one text return the same basic metrics,
    style, content, recommendations and overall score, whatever the clock
    reads; no random source is consulted; only [analyzed_at], the time of
    the run, differs. *)
Theorem C9_analysis_is_a_function_of_the_text text now now' :
  exists a a', analyze (init text) now = Some a /\
    analyze (init text) now' = Some a' /\
    basic a = basic a' /\ style a = style a' /\ content a = content a' /\
    recommendations a = recommendations a' /\
    overall_score a = overall_score a' /\
    analyzed_at a = strftime now /\ analyzed_at a' = strftime now'.
Proof.
  destruct (analyze_total text now) as (recs & sc & Hr & Hs & H).
  destruct (analyze_total text now') as (recs' & sc' & Hr' & Hs' & H').
  rewrite Hr in Hr'. injection Hr' as <-.
  rewrite Hs in Hs'. injection Hs' as <-.
  eexists. eexists. split; [exact H|]. split; [exact H'|].
  repeat split.
Qed.

(** C10: the overall score is at least 17.5: the length term gives at
    least 10 and the objectivity percentage is at least 50 (there are five
    personal pronouns, each taking 10 off at most once), which gives 7.5. *)
Theorem C10_score_at_least_17_5 text now :
  exists a o, analyze (init text) now = Some a /\
    objectivity_percent (style a) = Some o /\ 50 <= o /\
    len personal_pronouns = 5 /\
    o = 100 - matches personal_pronouns text * 10 /\
    (10 <= length_points (word_count (basic a)))%Q /\
    (15 # 2 <= inject_Z o * (15 # 100))%Q /\
    (35 # 2 <= score (overall_score a))%Q.
Proof.
  destruct (analyze_total text now) as (recs & sc & _ & Hs & H).
  exists {| basic := _basic_analysis (init text);
            style := _style_analysis (init text);
            content := _content_analysis (init text);
            recommendations := recs; overall_score := sc;
            analyzed_at := strftime now |}, (objectivity_score text).
  cbn [style overall_score basic].
  destruct (overall_score_bounds text sc Hs) as [Hlo _].
  pose proof (objectivity_score_bounds text) as Ho.
  pose proof (matches_bounds personal_pronouns text) as Hm.
  change (len personal_pronouns) with 5 in Hm.
  repeat split; try assumption; try lia.
  - apply objectivity_roundtrip.
  - unfold objectivity_score. lia.
  - apply length_points_lower.
  - unfold Qle. cbn [Qnum Qden Qmult inject_Z]. lia.
Qed.

(** * Further properties of the two classes *)

(** ** Digits *)

Lemma four_digit_matches_digit k s :
  (0 < four_digit_matches k s)%nat -> existsb isdecimal s = true.
Proof.
  revert k. induction s as [|c r IH]; intros k; simpl; [lia|].
  destruct (isdecimal c); [reflexivity|]. simpl. apply IH.
Qed.

Lemma digit_runs_digit s :
  existsb isdecimal s = true -> (0 < digit_runs false s)%nat.
Proof.
  induction s as [|c r IH]; simpl; [discriminate|].
  destruct (isdecimal c); simpl; [lia|exact IH].
Qed.

(** ** Paragraph separators *)

Lemma count_from_NL2_bound s :
  (2 * count_from [LF; LF] s 0 <= length s)%nat /\
  (2 * count_from [LF; LF] s 1 <= Nat.pred (length s))%nat.
Proof.
  induction s as [|c r [IH0 IH1]]; [simpl; lia|].
  split.
  - cbn [count_from]. destruct (startswith [LF; LF] (c :: r)) eqn:E.
    + destruct r as [|c' r']; [simpl in E; rewrite andb_false_r in E; discriminate|].
      cbn [length Nat.pred] in *. lia.
    + cbn [length]. lia.
  - cbn [count_from length Nat.pred]. lia.
Qed.

Lemma count_NL2_bounds s : 0 <= count [LF; LF] s /\ 2 * count [LF; LF] s <= len s.
Proof.
  unfold count, len. destruct (count_from_NL2_bound s) as [H _]. lia.
Qed.

(** ** Words *)

Ltac len_nil :=
  change (sum_len []) with 0 in *; change (@len _ []) with 0 in *.

Lemma sum_len_cons w r : sum_len (w :: r) = len w + sum_len r.
Proof. reflexivity. Qed.

Lemma len_rev {A} (l : list A) : len (rev l) = len l.
Proof. unfold len. now rewrite length_rev. Qed.

(** The words and the white space between them fit in the text. *)
Lemma split_ws_from_size cur s :
  sum_len (split_ws_from cur s) + len (split_ws_from cur s)
  <= len cur + len s + 1.
Proof.
  revert cur. induction s as [|c r IH]; intros cur.
  - destruct cur; cbn [split_ws_from];
      rewrite ?sum_len_cons, ?len_rev, ?len_cons; len_nil; lia.
  - cbn [split_ws_from]. destruct (isspace c).
    + destruct cur as [|a cur'].
      * specialize (IH []). rewrite len_cons in *. len_nil. lia.
      * specialize (IH []).
        rewrite sum_len_cons, len_rev, !len_cons in *. len_nil. lia.
    + specialize (IH (c :: cur)). rewrite !len_cons in *. lia.
Qed.

Lemma split_ws_from_nonempty cur s w :
  In w (split_ws_from cur s) -> 1 <= len w.
Proof.
  revert cur. induction s as [|c r IH]; intros cur.
  - destruct cur as [|a cur']; cbn [split_ws_from]; [intros []|].
    intros [<-|[]]. rewrite len_rev, len_cons. pose proof (len_nonneg cur'). lia.
  - cbn [split_ws_from]. destruct (isspace c).
    + destruct cur as [|a cur']; [apply IH|].
      intros [<-|H]; [|now apply IH in H].
      rewrite len_rev, len_cons. pose proof (len_nonneg cur'). lia.
    + apply IH.
Qed.

Lemma sum_len_lower ws :
  (forall w, In w ws -> 1 <= len w) -> len ws <= sum_len ws.
Proof.
  induction ws as [|w r IH]; intros H; [len_nil; lia|].
  rewrite sum_len_cons, len_cons.
  pose proof (H w (or_introl eq_refl)).
  assert (len r <= sum_len r) by (apply IH; intros; apply H; now right). lia.
Qed.

Lemma split_ws_from_nil cur s :
  split_ws_from cur s = [] -> cur = [] /\ forallb isspace s = true.
Proof.
  revert cur. induction s as [|c r IH]; intros cur.
  - destruct cur; cbn [split_ws_from]; [now split|discriminate].
  - cbn [split_ws_from forallb]. destruct (isspace c) eqn:E.
    + destruct cur; [|discriminate]. intros H. apply IH in H. tauto.
    + intros H. apply IH in H. destruct H; discriminate.
Qed.

(** ** Sentences *)

Lemma split_on_from_size sep cur s :
  sum_len (split_on_from sep cur s) + len (split_on_from sep cur s)
  = len cur + len s + 1.
Proof.
  revert cur. induction s as [|c r IH]; intros cur.
  - cbn [split_on_from].
    rewrite sum_len_cons, len_rev, len_cons. len_nil. lia.
  - cbn [split_on_from]. destruct (c =? sep)%N.
    + rewrite sum_len_cons, !len_cons, len_rev. specialize (IH []).
      len_nil. lia.
    + rewrite IH, !len_cons. lia.
Qed.

Lemma split_on_from_chars sep cur s f c :
  In f (split_on_from sep cur s) -> In c f -> In c cur \/ In c s.
Proof.
  revert cur. induction s as [|a r IH]; intros cur.
  - cbn [split_on_from]. intros [<-|[]] Hc. left. now apply in_rev.
  - cbn [split_on_from]. destruct (a =? sep)%N.
    + intros [<-|H] Hc.
      * left. now apply in_rev.
      * destruct (IH [] H Hc) as [[]|H']. right. now right.
    + intros H Hc. destruct (IH (a :: cur) H Hc) as [[->|H']|H'].
      * right. now left.
      * now left.
      * right. now right.
Qed.

Lemma lstrip_by_all p s : forallb p s = true -> lstrip_by p s = [].
Proof.
  induction s as [|c r IH]; simpl; [reflexivity|].
  destruct (p c); [exact IH|discriminate].
Qed.

Lemma strip_ws_blank s : forallb isspace s = true -> strip_ws s = [].
Proof.
  intros H. unfold strip_ws, strip_by. now rewrite (lstrip_by_all _ _ H).
Qed.

Lemma lstrip_by_len p s : len (lstrip_by p s) <= len s.
Proof.
  induction s as [|c r IH]; cbn [lstrip_by]; [lia|].
  destruct (p c); rewrite ?len_cons in *; lia.
Qed.

Lemma strip_by_len p s : len (strip_by p s) <= len s.
Proof.
  unfold strip_by, rstrip_by. rewrite len_rev.
  etransitivity; [apply lstrip_by_len|]. rewrite len_rev. apply lstrip_by_len.
Qed.

(** The fragments that count as sentences each hold a character. *)
Lemma sentences_fit (frags : list str) :
  len (filter (fun s => nonempty (strip_ws s)) frags) <= sum_len frags.
Proof.
  induction frags as [|f r IH]; [cbn [filter]; len_nil; lia|].
  cbn [filter]. rewrite sum_len_cons. pose proof (len_nonneg f).
  destruct (strip_ws f) as [|c x] eqn:E; cbn [nonempty]; [lia|].
  rewrite len_cons.
  pose proof (strip_by_len isspace f) as Hs. fold (strip_ws f) in Hs.
  rewrite E, len_cons in Hs. pose proof (len_nonneg x). lia.
Qed.

(** X1: the counts of the basic analysis fit the text they are taken from:
    no more words or sentences than characters, the words and the gaps
    between them within the text, two characters for each paragraph break;
    a text without a word has no sentence and zero averages and times. *)
Theorem basic_counts_fit_the_text text :
  let b := _basic_analysis (init text) in
  (0 <= word_count b /\ word_count b <= char_count b) /\
  sum_len (words (init text)) + word_count b <= char_count b + 1 /\
  (0 <= sentence_count b /\ sentence_count b <= char_count b) /\
  1 <= paragraph_count b /\ 2 * (paragraph_count b - 1) <= char_count b /\
  (word_count b = 0 ->
   sentence_count b = 0 /\ avg_sentence_length b = 0%Q /\
   avg_word_length b = 0%Q /\ reading_time_minutes b = 0%Q /\
   broadcast_time_seconds b = 0).
Proof.
  cbv zeta. unfold _basic_analysis.
  cbn [word_count char_count sentence_count paragraph_count avg_sentence_length
       avg_word_length reading_time_minutes broadcast_time_seconds].
  cbn [words sentences script_text init].
  pose proof (split_ws_from_size [] text) as Hsz. fold (split_ws text) in Hsz.
  assert (Hne : len (split_ws text) <= sum_len (split_ws text)).
  { apply sum_len_lower. intros w Hw. exact (split_ws_from_nonempty [] text w Hw). }
  pose proof (len_nonneg (split_ws text)) as Hw0.
  pose proof (split_on_from_size 46%N [] text) as Hso. fold (split_on 46%N text) in Hso.
  pose proof (sentences_fit (split_on 46%N text)) as Hsf.
  pose proof (len_nonneg (split_on 46%N text)) as Hs0.
  assert (Hs1 : 1 <= len (split_on 46%N text)).
  { unfold split_on. destruct text as [|c r]; cbn [split_on_from].
    - rewrite len_cons. len_nil. lia.
    - destruct (c =? 46)%N.
      + rewrite len_cons. pose proof (len_nonneg (split_on_from 46%N [] r)). lia.
      + clear. generalize [c]. induction r as [|a r IH]; intros cur; cbn [split_on_from].
        * rewrite len_cons. len_nil. lia.
        * destruct (a =? 46)%N; [|apply IH].
          rewrite len_cons. pose proof (len_nonneg (split_on_from 46%N [] r)). lia. }
  assert (Esent : len (map strip_ws
                         (filter (fun s => nonempty (strip_ws s)) (split_on 46%N text)))
                  = len (filter (fun s => nonempty (strip_ws s)) (split_on 46%N text))).
  { unfold len. now rewrite length_map. }
  rewrite Esent.
  pose proof (len_nonneg (filter (fun s => nonempty (strip_ws s)) (split_on 46%N text))).
  destruct (count_NL2_bounds text) as [Hc0 Hc1]. fold NL2 in Hc0, Hc1.
  len_nil.
  do 5 (split; [lia|]).
  intros Hz.
  assert (Hblank : forallb isspace text = true).
  { destruct (split_ws text) eqn:E.
    - exact (proj2 (split_ws_from_nil [] text E)).
    - rewrite len_cons in Hz. pose proof (len_nonneg l). lia. }
  assert (Hnos : filter (fun s => nonempty (strip_ws s)) (split_on 46%N text) = []).
  { clear - Hblank.
    assert (G : forall f, In f (split_on 46%N text) -> nonempty (strip_ws f) = false).
    { intros f Hf. rewrite strip_ws_blank; [reflexivity|].
      apply forallb_forall. intros c Hc.
      destruct (split_on_from_chars 46%N [] text f c Hf Hc) as [[]|Hin].
      rewrite forallb_forall in Hblank. now apply Hblank. }
    induction (split_on 46%N text) as [|f r IH]; [reflexivity|].
    cbn [filter]. rewrite (G f (or_introl eq_refl)). apply IH.
    intros f' Hf'. apply G. now right. }
  rewrite Hnos, Hz. repeat split; reflexivity.
Qed.

(** ** Rounding *)

Lemma round_half_even_error x :
  (Qabs (inject_Z (round_half_even x) - x) <= 1 # 2)%Q.
Proof.
  apply Qabs_Qle_condition. unfold round_half_even. destruct x as [n d].
  cbn [Qnum Qden]. cbv zeta.
  pose proof (Z.div_mod n (Z.pos d) ltac:(lia)) as Hdm.
  pose proof (Z.mod_pos_bound n (Z.pos d) ltac:(lia)) as Hb.
  set (f := n / Z.pos d) in *. set (r := n mod Z.pos d) in *.
  destruct (Z.compare_spec (2 * r) (Z.pos d)) as [E|E|E];
    [destruct (Z.even f)|..];
    unfold Qle, Qminus, Qplus, Qopp, inject_Z; cbn [Qnum Qden]; split; nia.
Qed.

Lemma round1_error x : (Qabs (round1 x - x) <= 1 # 20)%Q.
Proof.
  unfold round1. rewrite Qred_correct.
  pose proof (round_half_even_error (x * 10)) as H.
  apply Qabs_Qle_condition in H. apply Qabs_Qle_condition.
  set (k := round_half_even (x * 10)) in *.
  assert (E : (k # 10 == inject_Z k * (1 # 10))%Q).
  { unfold Qeq, Qmult, inject_Z. cbn [Qnum Qden]. lia. }
  rewrite E. generalize dependent (inject_Z k). intros y H. lra.
Qed.

Lemma truediv_nonneg_num a b : 0 <= a -> 0 < b -> 0 <= Qnum (truediv a b).
Proof.
  intros Ha Hb. pose proof (truediv_nonneg a b Ha Hb) as H.
  unfold Qle in H. cbn [Qnum Qden] in H. lia.
Qed.

Lemma truediv_eq a b : 0 < b -> (truediv a b == inject_Z a / inject_Z b)%Q.
Proof. intros _. unfold truediv. apply Qred_correct. Qed.

Lemma floor_of_Qeq (p q : Q) : (p == q)%Q ->
  Qnum p / Z.pos (Qden p) = Qnum q / Z.pos (Qden q).
Proof.
  unfold Qeq. destruct p as [a d], q as [a' d']. cbn [Qnum Qden]. intros E.
  rewrite <- (Z.div_mul_cancel_r a (Z.pos d) (Z.pos d')) by lia.
  rewrite E, (Z.mul_comm (Z.pos d)).
  apply Z.div_mul_cancel_r; lia.
Qed.

Lemma int_of_float_truediv a b :
  0 <= a -> 0 < b -> int_of_float (truediv a b) = a / b.
Proof.
  intros Ha Hb. unfold int_of_float.
  pose proof (truediv_nonneg_num a b Ha Hb) as Hn.
  rewrite Z.quot_div_nonneg by lia.
  rewrite (floor_of_Qeq _ _ (truediv_eq a b Hb)).
  destruct b as [|p|p]; try lia.
  unfold Qdiv, Qmult, Qinv, inject_Z. cbn [Qnum Qden]. 
  now rewrite Z.mul_1_r, Pos.mul_1_l.
Qed.

(** X2: the averages and times of the basic analysis are the quotients
    they are named after, to the rounding the code applies: the reported
    average sentence length, average word length and reading time are
    within 0.05 of the exact quotient, and the broadcast time is the floor
    of word_count / 2.5. *)
Theorem basic_averages_are_rounded_quotients text :
  let self := init text in
  let b := _basic_analysis self in
  (sentence_count b = 0 -> avg_sentence_length b = 0%Q) /\
  (0 < sentence_count b ->
   (Qabs (avg_sentence_length b
          - inject_Z (word_count b) / inject_Z (sentence_count b)) <= 1 # 20)%Q) /\
  (0 < word_count b ->
   (Qabs (avg_word_length b
          - inject_Z (sum_len (words self)) / inject_Z (word_count b)) <= 1 # 20)%Q) /\
  (Qabs (reading_time_minutes b - inject_Z (word_count b) / 150) <= 1 # 20)%Q /\
  5 * broadcast_time_seconds b <= 2 * word_count b < 5 * broadcast_time_seconds b + 5.
Proof.
  cbv zeta. unfold _basic_analysis.
  cbn [word_count sentence_count avg_sentence_length avg_word_length
       reading_time_minutes broadcast_time_seconds].
  set (wc := len (words (init text))). set (sc := len (sentences (init text))).
  assert (Hwc : 0 <= wc) by apply len_nonneg.
  split; [|split; [|split; [|split]]].
  - intros ->. reflexivity.
  - intros H. destruct (Z.ltb_spec 0 sc); [|lia].
    rewrite <- (truediv_eq wc sc) by assumption. apply round1_error.
  - intros H. destruct (Z.ltb_spec 0 wc); [|lia].
    rewrite <- (truediv_eq (sum_len (words (init text))) wc) by assumption.
    apply round1_error.
  - change 150%Q with (inject_Z 150).
    rewrite <- (truediv_eq wc 150) by lia. apply round1_error.
  - rewrite int_of_float_truediv by lia.
    pose proof (Z.div_mod (wc * 2) 5 ltac:(lia)).
    pose proof (Z.mod_pos_bound (wc * 2) 5 ltac:(lia)). lia.
Qed.

Lemma nodup_length_le {A} (dec : forall a b : A, {a = b} + {a <> b}) l :
  (length (nodup dec l) <= length l)%nat.
Proof.
  induction l as [|x r IH]; simpl; [lia|].
  destruct (in_dec dec x r); simpl; lia.
Qed.

Lemma nodup_length_eq {A} (dec : forall a b : A, {a = b} + {a <> b}) l :
  length (nodup dec l) = length l <-> NoDup l.
Proof.
  split.
  - induction l as [|x r IH]; simpl; [constructor|].
    pose proof (nodup_length_le dec r) as Hle.
    destruct (in_dec dec x r); simpl; intros H; [lia|].
    constructor; [assumption|apply IH; lia].
  - intros H. now rewrite nodup_fixed_point.
Qed.

(** X3: the diversity score is a ratio between 0 and 1; it is 0 exactly
    when the text has no word and 1 exactly when no word occurs twice. *)
Theorem diversity_score_range text :
  let self := init text in
  let d := diversity_score (_content_analysis self) in
  (0 <= d)%Q /\ (d <= 1)%Q /\
  ((d == 0)%Q <-> words self = []) /\
  ((d == 1)%Q <-> words self <> [] /\ NoDup (words self)).
Proof.
  cbv zeta. unfold _content_analysis. cbn [diversity_score].
  destruct (words (init text)) as [|w ws] eqn:E; cbn [nonempty].
  - split; [apply Qle_refl|]. split; [discriminate|]. split.
    + split; reflexivity.
    + split; [intros H; discriminate H|intros [H _]; congruence].
  - set (l := w :: ws).
    assert (Hl : 0 < len l) by (unfold l; rewrite len_cons; pose proof (len_nonneg ws); lia).
    assert (Hd : 1 <= distinct l <= len l).
    { unfold distinct, len. pose proof (nodup_length_le str_eq_dec l).
      split; [|lia].
      assert (Hin : In w (nodup str_eq_dec l)) by (apply nodup_In; now left).
      destruct (nodup str_eq_dec l) as [|a r]; [destruct Hin|].
      cbn [length]. lia. }
    rewrite (truediv_eq _ _ Hl).
    assert (Hq : (0 < inject_Z (len l))%Q)
      by (change 0%Q with (inject_Z 0); now rewrite <- Zlt_Qlt).
    assert (Hdq : (1 <= inject_Z (distinct l))%Q /\
                  (inject_Z (distinct l) <= inject_Z (len l))%Q).
    { change 1%Q with (inject_Z 1). rewrite <- !Zle_Qle. exact Hd. }
    repeat split.
    + apply Qle_shift_div_l; [assumption|]. lra.
    + apply Qle_shift_div_r; [assumption|]. lra.
    + intros H. exfalso.
      assert (H' : (inject_Z (distinct l) == 0 * inject_Z (len l))%Q).
      { rewrite <- H. field. lra. }
      lra.
    + discriminate.
    + discriminate.
    + assert (H' : (inject_Z (distinct l) == inject_Z (len l))%Q).
      { rewrite <- (Qmult_1_l (inject_Z (len l))). rewrite <- H. field. lra. }
      apply (nodup_length_eq str_eq_dec).
      unfold Qeq, distinct, len in H'. cbn [Qnum Qden inject_Z] in H'. lia.
    + intros [_ H]. apply (nodup_length_eq str_eq_dec) in H.
      unfold distinct, len. rewrite H. field. fold (len l). lra.
Qed.

(** X4: the lexicon tests are substring tests, so they are monotone in the
    text: a text embedded in a longer one keeps every hit.  The longer text
    has at least the journalist score, at most the objectivity, and every
    topic, source mention and quotation mark of the shorter one. *)
Theorem lexicon_hits_survive_embedding t p q :
  let small := init t in
  let big := init (p ++ t ++ q) in
  journalist_score (_style_analysis small)
    <= journalist_score (_style_analysis big) /\
  objectivity_score (p ++ t ++ q) <= objectivity_score t /\
  incl (topics_covered (_content_analysis small))
       (topics_covered (_content_analysis big)) /\
  implb (mentions_sources (_content_analysis small))
        (mentions_sources (_content_analysis big)) = true /\
  implb (has_quotes (_content_analysis small))
        (has_quotes (_content_analysis big)) = true.
Proof.
  cbv zeta. unfold _style_analysis, _content_analysis.
  cbn [journalist_score topics_covered mentions_sources has_quotes
       script_text init].
  split; [apply matches_extend|]. split.
  { unfold objectivity_score.
    pose proof (matches_extend personal_pronouns t p q). lia. }
  split.
  { intros topic H. apply in_map_iff in H. destruct H as [[lbl kws] [<- H]].
    apply filter_In in H. destruct H as [Hin Hany].
    apply in_map_iff. exists (lbl, kws). split; [reflexivity|].
    apply filter_In. split; [assumption|]. now apply any_in_extend. }
  split.
  { destruct (any_in source_words t) eqn:E; [|reflexivity].
    cbn [implb]. now apply any_in_extend. }
  destruct (contains [dquote] t || contains (u "'") t) eqn:E; [|reflexivity].
  cbn [implb]. apply orb_true_iff in E. apply orb_true_iff.
  destruct E as [E|E]; [left|right]; now apply contains_extend.
Qed.

(** X5: two pairs of score terms move together.  A text is flagged
    well structured exactly when it has three paragraphs or more, so the two
    structure terms of the score are earned together or not at all; and a
    text with a run of four digits has a number, so the date points never
    come without the data points. *)
Theorem structure_and_data_terms_are_coupled text :
  let self := init text in
  well_structured (_style_analysis self)
    = (3 <=? paragraph_count (_basic_analysis self)) /\
  implb (has_dates (_style_analysis self)) (uses_data (_style_analysis self))
    = true /\
  uses_data (_style_analysis self)
    = (1 <=? numbers_count (_style_analysis self)).
Proof.
  cbv zeta. unfold _style_analysis, _basic_analysis.
  cbn [well_structured paragraph_count has_dates uses_data numbers_count
       script_text init].
  split; [|split].
  - destruct (Z.leb_spec 2 (count NL2 text)), (Z.leb_spec 3 (count NL2 text + 1));
      reflexivity || lia.
  - unfold findall_4digits, findall_digits.
    destruct (Z.ltb_spec 0 (Z.of_nat (four_digit_matches 0 text))); [|reflexivity].
    cbn [implb].
    assert (H' : (0 < digit_runs false text)%nat).
    { apply digit_runs_digit, (four_digit_matches_digit 0). lia. }
    apply Z.ltb_lt. lia.
  - destruct (Z.ltb_spec 0 (findall_digits text)), (Z.leb_spec 1 (findall_digits text));
      reflexivity || lia.
Qed.

(** ** The recommendations *)

Lemma rec_eqb_eq a b : rec_eqb a b = true <-> a = b.
Proof.
  unfold rec_eqb. rewrite !andb_true_iff, !str_eqb_eq.
  destruct a, b; cbn. split.
  - intros [[[-> ->] ->] ->]. reflexivity.
  - intros H. injection H as -> -> -> ->. tauto.
Qed.

Lemma In_rec_eqb r l : In r l <-> existsb (rec_eqb r) l = true.
Proof.
  rewrite existsb_exists. split.
  - intros H. exists r. split; [assumption|now apply rec_eqb_eq].
  - intros (x & Hx & E). apply rec_eqb_eq in E. now subst.
Qed.

Lemma generate_recommendations_by_rule basic style content objectivity :
  objectivity_percent style = Some objectivity ->
  _generate_recommendations basic style content =
    Some (let l := fired_rules (word_count basic <? 100) (600 <? word_count basic)
                     (journalist_score style <? 3) (objectivity <? 80)
                     (negb (uses_data style)) (negb (mentions_sources content))
                     (paragraph_count basic <? 3)
                     (Qltb 25 (avg_sentence_length basic)) in
          if nonempty l then l else [rec_no_issues]).
Proof.
  intros E. unfold _generate_recommendations, fired_rules, fired. rewrite E.
  destruct (word_count basic <? 100), (600 <? word_count basic),
    (journalist_score style <? 3), (objectivity <? 80), (uses_data style),
    (mentions_sources content), (paragraph_count basic <? 3),
    (Qltb 25 (avg_sentence_length basic)); reflexivity.
Qed.

Lemma fired_rules_flags c1 c2 c3 c4 c5 c6 c7 c8 :
  fired_rules c1 c2 c3 c4 c5 c6 c7 c8 =
  map snd (filter fst
    (combine [c1; negb c1 && c2; c3; c4; c5; c6; c7; c8] rule_order)).
Proof.
  unfold fired_rules, fired, rule_order.
  destruct c1, c2, c3, c4, c5, c6, c7, c8; reflexivity.
Qed.

Lemma fired_rules_members c1 c2 c3 c4 c5 c6 c7 c8 :
  let l := fired_rules c1 c2 c3 c4 c5 c6 c7 c8 in
  existsb (rec_eqb rec_too_short) l = c1 /\
  existsb (rec_eqb rec_too_long) l = negb c1 && c2 /\
  existsb (rec_eqb rec_style) l = c3 /\
  existsb (rec_eqb rec_objectivity) l = c4 /\
  existsb (rec_eqb rec_data) l = c5 /\
  existsb (rec_eqb rec_sources) l = c6 /\
  existsb (rec_eqb rec_structure) l = c7 /\
  existsb (rec_eqb rec_sentences) l = c8 /\
  existsb (rec_eqb rec_no_issues) l = false /\
  nonempty l = c1 || c2 || c3 || c4 || c5 || c6 || c7 || c8.
Proof.
  destruct c1, c2, c3, c4, c5, c6, c7, c8; vm_compute; repeat split.
Qed.

Lemma Some_eq {A} (a b : A) : Some a = Some b -> a = b.
Proof. intros H. now injection H. Qed.

(** The recommendations of a text, from the conditions of the rules *)
Lemma recommendations_of_text text now :
  exists a o,
    analyze (init text) now = Some a /\
    basic a = _basic_analysis (init text) /\
    style a = _style_analysis (init text) /\
    content a = _content_analysis (init text) /\
    _calculate_overall_score (basic a) (style a) (content a)
      = Some (overall_score a) /\
    objectivity_percent (style a) = Some o /\ o = objectivity_score text /\
    recommendations a =
      (let l := fired_rules (word_count (basic a) <? 100)
                  (600 <? word_count (basic a))
                  (journalist_score (style a) <? 3) (o <? 80)
                  (negb (uses_data (style a)))
                  (negb (mentions_sources (content a)))
                  (paragraph_count (basic a) <? 3)
                  (Qltb 25 (avg_sentence_length (basic a))) in
       if nonempty l then l else [rec_no_issues]).
Proof.
  destruct (analyze_total text now) as (recs & sc & Hr & Hs & H).
  exists {| basic := _basic_analysis (init text);
            style := _style_analysis (init text);
            content := _content_analysis (init text);
            recommendations := recs; overall_score := sc;
            analyzed_at := strftime now |}, (objectivity_score text).
  cbn [basic style content overall_score recommendations].
  pose proof (generate_recommendations_by_rule (_basic_analysis (init text))
                (_style_analysis (init text)) (_content_analysis (init text))
                (objectivity_score text) (objectivity_roundtrip text)) as G.
  rewrite Hr in G. apply Some_eq in G.
  split; [exact H|]. do 3 (split; [reflexivity|]). split; [exact Hs|].
  split; [apply objectivity_roundtrip|]. split; [reflexivity|]. exact G.
Qed.

(** X6: which recommendations a text gets.  Each of the eight rules puts
    its recommendation in the list exactly when its condition holds; the
    "no major issues" entry is there exactly when it is the whole list;
    and the entries stand in the order of the rules. *)
Theorem recommendations_follow_the_rules text now :
  exists a o, analyze (init text) now = Some a /\
    objectivity (style a) = str_of_int o ++ u "%" /\
    o = 100 - matches personal_pronouns text * 10 /\
    let recs := recommendations a in
    (In rec_too_short recs <-> word_count (basic a) < 100) /\
    (In rec_too_long recs <-> 600 < word_count (basic a)) /\
    (In rec_style recs <-> journalist_score (style a) < 3) /\
    (In rec_objectivity recs <-> o < 80) /\
    (In rec_data recs <-> uses_data (style a) = false) /\
    (In rec_sources recs <-> mentions_sources (content a) = false) /\
    (In rec_structure recs <-> paragraph_count (basic a) < 3) /\
    (In rec_sentences recs <-> (25 < avg_sentence_length (basic a))%Q) /\
    (In rec_no_issues recs <-> recs = [rec_no_issues]) /\
    (recs = [rec_no_issues] \/
     exists flags, length flags = 8%nat /\
       recs = map snd (filter fst (combine flags rule_order))).
Proof.
  destruct (recommendations_of_text text now)
    as (a & o & Ha & Hb & Hst & Hc & _ & Ho & Eo & Hr).
  exists a, o. split; [exact Ha|]. split.
  { rewrite Hst, Eo. reflexivity. }
  split.
  { rewrite Eo. unfold objectivity_score.
    pose proof (matches_bounds personal_pronouns text) as Hm.
    change (len personal_pronouns) with 5 in Hm. lia. }
  cbv zeta. rewrite Hr. cbv zeta.
  set (c1 := word_count (basic a) <? 100).
  set (c2 := 600 <? word_count (basic a)).
  set (c3 := journalist_score (style a) <? 3).
  set (c4 := o <? 80).
  set (c5 := negb (uses_data (style a))).
  set (c6 := negb (mentions_sources (content a))).
  set (c7 := paragraph_count (basic a) <? 3).
  set (c8 := Qltb 25 (avg_sentence_length (basic a))).
  destruct (fired_rules_members c1 c2 c3 c4 c5 c6 c7 c8)
    as (M1 & M2 & M3 & M4 & M5 & M6 & M7 & M8 & M9 & Mn).
  cbv zeta in *.
  assert (E1 : c1 = true <-> word_count (basic a) < 100) by apply Z.ltb_lt.
  assert (E2 : negb c1 && c2 = true <-> 600 < word_count (basic a)).
  { unfold c1, c2. rewrite andb_true_iff, negb_true_iff, Z.ltb_ge, Z.ltb_lt. lia. }
  assert (E3 : c3 = true <-> journalist_score (style a) < 3) by apply Z.ltb_lt.
  assert (E4 : c4 = true <-> o < 80) by apply Z.ltb_lt.
  assert (E5 : c5 = true <-> uses_data (style a) = false) by apply negb_true_iff.
  assert (E6 : c6 = true <-> mentions_sources (content a) = false)
    by apply negb_true_iff.
  assert (E7 : c7 = true <-> paragraph_count (basic a) < 3) by apply Z.ltb_lt.
  assert (E8 : c8 = true <-> (25 < avg_sentence_length (basic a))%Q)
    by apply Qltb_lt.
  destruct (nonempty (fired_rules c1 c2 c3 c4 c5 c6 c7 c8)) eqn:En.
  - rewrite !In_rec_eqb, M1, M2, M3, M4, M5, M6, M7, M8, M9.
    repeat (split; [assumption|]). split.
    + split; [discriminate|]. intros E. rewrite E in M9. vm_compute in M9.
      discriminate.
    + right. exists [c1; negb c1 && c2; c3; c4; c5; c6; c7; c8].
      split; [reflexivity|apply fired_rules_flags].
  - symmetry in Mn. rewrite !orb_false_iff in Mn.
    destruct Mn as [[[[[[[N1 N2] N3] N4] N5] N6] N7] N8].
    rewrite N1, N2 in E2. cbn [negb andb] in E2.
    rewrite N1 in E1. rewrite N3 in E3. rewrite N4 in E4. rewrite N5 in E5.
    rewrite N6 in E6. rewrite N7 in E7. rewrite N8 in E8.
    assert (F : forall r, rec_eqb r rec_no_issues = false ->
                          (In r [rec_no_issues] <-> false = true)).
    { intros r Hne. split; [|discriminate]. intros [E|[]].
      symmetry in E. apply rec_eqb_eq in E. congruence. }
    repeat (split; [rewrite F by (vm_compute; reflexivity); assumption|]).
    split; [|now left]. split; [reflexivity|now left].
Qed.

Lemma well_structured_paragraphs text :
  well_structured (_style_analysis (init text))
  = (3 <=? paragraph_count (_basic_analysis (init text))).
Proof.
  unfold _style_analysis, _basic_analysis.
  cbn [well_structured paragraph_count script_text init].
  destruct (Z.leb_spec 2 (count NL2 text)), (Z.leb_spec 3 (count NL2 text + 1));
    reflexivity || lia.
Qed.

Lemma raw_score_without_issues basic style content objectivity :
  3 <= journalist_score style -> 80 <= objectivity ->
  uses_data style = true -> mentions_sources content = true ->
  (3 <=? paragraph_count basic) = true -> well_structured style = true ->
  (0 <= diversity_score content)%Q ->
  (61 <= raw_score basic style content objectivity)%Q.
Proof.
  intros Hj Ho Hu Hm Hp Hw Hd. unfold raw_score. rewrite Hu, Hm, Hp, Hw.
  pose proof (length_points_lower (word_count basic)) as Hl.
  assert (Hj' : (9 <= inject_Z (Z.min 25 (journalist_score style * 3)))%Q).
  { change 9%Q with (inject_Z 9). rewrite <- Zle_Qle. lia. }
  assert (Ho' : (80 <= inject_Z objectivity)%Q).
  { change 80%Q with (inject_Z 80). now rewrite <- Zle_Qle. }
  generalize dependent (length_points (word_count basic)).
  generalize dependent (inject_Z (Z.min 25 (journalist_score style * 3))).
  generalize dependent (inject_Z objectivity).
  generalize dependent (diversity_score content).
  intros dv Hd ob Hob js Hjs lp Hlp.
  destruct (has_dates style); lra.
Qed.

(** X7: a script the rules find nothing to object to is rated "good" or
    better: when the recommendations are just the "no major issues" entry,
    the overall score is at least 61. *)
Theorem a_script_without_issues_rates_good text now a :
  analyze (init text) now = Some a ->
  recommendations a = [rec_no_issues] ->
  (61 <= score (overall_score a))%Q /\
  (rating (overall_score a) = u "جيد" \/
   rating (overall_score a) = u "جيد جداً" \/
   rating (overall_score a) = u "ممتاز").
Proof.
  intros Ha Hrec.
  destruct (recommendations_of_text text now)
    as (a' & o & Ha' & Hb & Hst & Hc & Hsc & Ho & Eo & Hr).
  rewrite Ha in Ha'. apply Some_eq in Ha'. subst a'.
  rewrite Hrec in Hr. cbv zeta in Hr.
  match type of Hr with
  | _ = if nonempty (fired_rules ?c1 ?c2 ?c3 ?c4 ?c5 ?c6 ?c7 ?c8) then _ else _ =>
    destruct (fired_rules_members c1 c2 c3 c4 c5 c6 c7 c8)
      as (_ & _ & _ & _ & _ & _ & _ & _ & M9 & Mn);
    cbv zeta in M9, Mn;
    destruct (nonempty (fired_rules c1 c2 c3 c4 c5 c6 c7 c8)) eqn:En;
    [rewrite <- Hr in M9; vm_compute in M9; discriminate M9|]
  end.
  symmetry in Mn. rewrite !orb_false_iff in Mn.
  destruct Mn as [[[[[[[N1 N2] N3] N4] N5] N6] N7] N8].
  apply Z.ltb_ge in N3, N4, N7. apply negb_false_iff in N5, N6.
  assert (Hscore : (61 <= score (overall_score a))%Q).
  { unfold _calculate_overall_score in Hsc. rewrite Ho in Hsc.
    apply Some_eq in Hsc. rewrite <- Hsc. cbn [score].
    apply Qmin2_lower; [unfold Qle; simpl; lia|].
    apply (Qle_trans _ (610 # 10)); [unfold Qle; simpl; lia|].
    apply round1_lower. change (inject_Z 610) with (610 # 1)%Q.
    assert (Hraw : (61 <= raw_score (basic a) (style a) (content a) o)%Q).
    { apply raw_score_without_issues; try assumption.
      - now apply Z.leb_le.
      - rewrite Hst, well_structured_paragraphs, <- Hb. now apply Z.leb_le.
      - rewrite Hc. apply diversity_nonneg. }
    lra. }
  split; [exact Hscore|].
  unfold _calculate_overall_score in Hsc. rewrite Ho in Hsc.
  apply Some_eq in Hsc. rewrite <- Hsc in Hscore |- *. cbn [rating score] in *.
  unfold rating_of.
  destruct (Qleb 90 _); [tauto|]. destruct (Qleb 75 _); [tauto|].
  destruct (Qleb 60 _) eqn:E60; [tauto|].
  exfalso. apply not_true_iff_false in E60. apply E60, Qleb_le.
  apply (Qle_trans _ 61); [unfold Qle; simpl; lia|exact Hscore].
Qed.

(** The thirteen-paragraph sample gets no objection, so the theorem
    applies to it. *)
Lemma a_script_without_issues_rates_good_witness :
  exists a, analyze (init clean_text) Sample.clock = Some a /\
    recommendations a = [rec_no_issues] /\ (61 <= score (overall_score a))%Q.
Proof.
  assert (H : exists a, analyze (init clean_text) Sample.clock = Some a /\
                        recommendations a = [rec_no_issues]).
  { eexists. split; vm_compute; reflexivity. }
  destruct H as (a & H1 & H2). exists a. split; [exact H1|]. split; [exact H2|].
  exact (proj1 (a_script_without_issues_rates_good clean_text Sample.clock a H1 H2)).
Defined.

(** ** The random source *)

Lemma randbelow_lt n g : (0 < n)%nat -> (fst (randbelow n g) < n)%nat.
Proof. intros H. unfold randbelow. cbn [fst]. apply Nat.mod_upper_bound. lia. Qed.

Lemma choice_In {A} (d : A) seq g : seq <> [] -> In (fst (choice d seq g)) seq.
Proof.
  intros H. unfold choice, bind, ret.
  pose proof (randbelow_lt (length seq) g) as Hlt.
  destruct (randbelow (length seq) g) as [i g']. cbn [fst] in *.
  apply nth_In, Hlt. destruct seq; [congruence|simpl; lia].
Qed.

Lemma remove_nth_perm {A} (d : A) i l :
  (i < length l)%nat -> Permutation (nth i l d :: remove_nth i l) l.
Proof.
  revert i. induction l as [|x r IH]; intros i Hi; [simpl in Hi; lia|].
  destruct i as [|j]; simpl; [reflexivity|].
  rewrite perm_swap. constructor. apply IH. simpl in Hi. lia.
Qed.

Lemma remove_nth_length {A} i (l : list A) :
  (i < length l)%nat -> length (remove_nth i l) = Nat.pred (length l).
Proof.
  revert i. induction l as [|x r IH]; intros i Hi; [simpl in Hi; lia|].
  destruct i as [|j]; simpl; [reflexivity|].
  simpl in Hi. rewrite IH by lia. destruct r; [simpl in Hi; lia|reflexivity].
Qed.

(** [sample] draws [k] elements from distinct positions of the pool. *)
Lemma sample_spec {A} k : forall (pool : list A) g,
  length (fst (sample pool k g)) = Nat.min k (length pool) /\
  exists rest, Permutation (fst (sample pool k g) ++ rest) pool.
Proof.
  induction k as [|k IH]; intros pool g.
  - cbn. split; [reflexivity|]. now exists pool.
  - destruct pool as [|d pool'].
    + cbn. split; [reflexivity|]. now exists [].
    + cbn [sample]. unfold bind, ret. set (pool := d :: pool').
      pose proof (randbelow_lt (length pool) g ltac:(simpl; lia)) as Hlt.
      destruct (randbelow (length pool) g) as [i g1]. cbn [fst] in Hlt.
      specialize (IH (remove_nth i pool) g1).
      destruct (sample (remove_nth i pool) k g1) as [rest g2].
      cbv beta iota. cbn [fst] in *.
      destruct IH as [Hlen [more Hperm]]. split.
      * cbn [length]. rewrite Hlen, remove_nth_length by assumption.
        unfold pool. cbn [length]. lia.
      * exists more. cbn [app].
        eapply Permutation_trans; [|apply (remove_nth_perm d i pool Hlt)].
        now constructor.
Qed.

(** ** The randomly selected parts *)

Lemma join_head_nonempty sep p rest :
  nonempty p = true -> nonempty (join sep (p :: rest)) = true.
Proof.
  destruct p as [|c p']; [discriminate|]. intros _.
  destruct rest; reflexivity.
Qed.

Lemma format_key_landmark_nonempty k : nonempty (PSG.format_key_landmark k) = true.
Proof.
  unfold PSG.format_key_landmark.
  change (u "• ") with [8226%N; 32%N].
  destruct (kl_year k) as [y|]; [destruct (truthy y)|];
    destruct (nonempty (get (kl_significance k) [])); reflexivity.
Qed.

(** X8: the two sampled sections.  The key-landmarks text lists
    min(available, max(2, duration / 60)) landmarks and the angles text
    lists min(available, 5) angles numbered from 1, each drawn from a
    different position of the landmark's list; with nothing available the
    text is empty. *)
Theorem sampled_sections_draw_without_replacement self g :
  let lm := PSG.landmark_data self in
  let kls := get (key_landmarks lm) [] in
  let angles := get (journalist_angles lm) [] in
  (exists selected rest,
     Permutation (selected ++ rest) kls /\
     len selected =
       Z.min (len kls) (Z.max 2 (Z.quot (PSG.duration_seconds self) 60)) /\
     fst (PSG._generate_key_landmarks self g) =
       join [LF; LF] (map PSG.format_key_landmark selected)) /\
  (exists selected rest,
     Permutation (selected ++ rest) angles /\
     len selected = Z.min (len angles) 5 /\
     fst (PSG._suggest_journalist_angles self g) =
       (if nonempty angles
        then join [LF] (u "زوايا صحفية مقترحة للتغطية:" :: PSG.numbered 1 selected)
        else [])).
Proof.
  cbv zeta. split.
  - unfold PSG._generate_key_landmarks. cbv zeta.
    destruct (get (key_landmarks (PSG.landmark_data self)) []) as [|k0 ks] eqn:E.
    + exists [], []. split; [constructor|]. split; [|reflexivity].
      change (len (@nil KeyLandmark)) with 0. lia.
    + set (kls := k0 :: ks).
      set (num := Z.min (len kls) (Z.max 2 (Z.quot (PSG.duration_seconds self) 60))).
      unfold bind, ret.
      destruct (sample_spec (Z.to_nat num) kls g) as [Hlen [rest Hperm]].
      destruct (sample kls (Z.to_nat num) g) as [selected g']. cbn [fst] in *.
      exists selected, rest. split; [exact Hperm|]. split; [|reflexivity].
      unfold len in *. rewrite Hlen.
      assert (1 <= Z.of_nat (length kls)) by (unfold kls; simpl length; lia).
      lia.
  - unfold PSG._suggest_journalist_angles. cbv zeta.
    destruct (get (journalist_angles (PSG.landmark_data self)) []) as [|a0 as'] eqn:E.
    + exists [], []. split; [constructor|]. split; reflexivity.
    + set (angles := a0 :: as'). unfold bind, ret.
      destruct (sample_spec (Z.to_nat (Z.min (len angles) 5)) angles g)
        as [Hlen [rest Hperm]].
      destruct (sample angles (Z.to_nat (Z.min (len angles) 5)) g)
        as [selected g']. cbn [fst] in *.
      exists selected, rest. split; [exact Hperm|]. split; [|reflexivity].
      unfold len in *. rewrite Hlen. lia.
Qed.

(** ** The sections of a script *)

Lemma key_landmarks_text_nonempty self g :
  nonempty (fst (PSG._generate_key_landmarks self g))
  = nonempty (get (key_landmarks (PSG.landmark_data self)) []).
Proof.
  unfold PSG._generate_key_landmarks. cbv zeta.
  destruct (get (key_landmarks (PSG.landmark_data self)) []) as [|k0 ks];
    [reflexivity|].
  set (kls := k0 :: ks). unfold bind, ret.
  set (n := Z.to_nat _).
  assert (Hn : (1 <= Nat.min n (length kls))%nat).
  { unfold n, kls, len. simpl length. lia. }
  destruct (sample_spec n kls g) as [Hlen _].
  destruct (sample kls n g) as [selected g']. cbn [fst] in *.
  destruct selected as [|k sel]; [simpl in Hlen; lia|].
  cbn [map nonempty]. apply join_head_nonempty, format_key_landmark_nonempty.
Qed.

Lemma statistics_text_nonempty str_title self :
  nonempty (PSG._generate_statistics str_title self)
  = nonempty (get (statistics (PSG.landmark_data self)) []).
Proof.
  unfold PSG._generate_statistics. cbv zeta.
  destruct (get (statistics (PSG.landmark_data self)) []); [reflexivity|].
  cbn [nonempty]. now apply join_head_nonempty.
Qed.

Lemma angles_text_nonempty self g :
  nonempty (fst (PSG._suggest_journalist_angles self g))
  = nonempty (get (journalist_angles (PSG.landmark_data self)) []).
Proof.
  unfold PSG._suggest_journalist_angles. cbv zeta.
  destruct (get (journalist_angles (PSG.landmark_data self)) []) as [|a0 r];
    [reflexivity|].
  unfold bind, ret. destruct (sample _ _ g) as [selected g']. cbn [fst nonempty].
  now apply join_head_nonempty.
Qed.

Lemma map_fst_if_snoc {A B} (b : bool) (l : list (A * B)) x :
  map fst (if b then l ++ [x] else l) = map fst l ++ (if b then [fst x] else []).
Proof. destruct b; [apply map_app|now rewrite app_nil_r]. Qed.

Lemma if_if_snoc {A} (b c : bool) (l : list A) x :
  (if b then if c then l ++ [x] else l else l) = if b && c then l ++ [x] else l.
Proof. now destruct b, c. Qed.

(** The titles of the sections, gate by gate *)
Lemma generate_titles str_title self now g :
  let d := PSG.duration_seconds self in
  let lm := PSG.landmark_data self in
  exists story,
    ((120 <=? d) && nonempty (get (stories lm) []) = true ->
     In story (get (stories lm) [])) /\
    map fst (PSG.sections (fst (PSG.generate str_title self now g))) =
      [u "العنوان"; u "المقدمة"]
      ++ (if 90 <=? d then [u "الخلفية التاريخية"] else [])
      ++ [u "الوصف التفصيلي"]
      ++ (if 60 <=? d then [u "الأهمية والتفرد"] else [])
      ++ (if (120 <=? d) && nonempty (get (stories lm) [])
          then [u "قصة: " ++ story_title story] else [])
      ++ (if (90 <=? d) && nonempty (get (key_landmarks lm) [])
          then [u "المعالم البارزة"] else [])
      ++ (if (150 <=? d) && nonempty (get (statistics lm) [])
          then [u "أرقام وإحصائيات"] else [])
      ++ (if (180 <=? d) && nonempty (get (journalist_angles lm) [])
          then [u "زوايا صحفية مقترحة"] else [])
      ++ (if 60 <=? d then [u "معلومات الزيارة"] else [])
      ++ [u "الخاتمة"].
Proof.
  cbv zeta. set (d := PSG.duration_seconds self).
  set (sts := get (stories (PSG.landmark_data self)) []).
  set (nk := nonempty (get (key_landmarks (PSG.landmark_data self)) [])).
  set (na := nonempty (get (journalist_angles (PSG.landmark_data self)) [])).
  rewrite <- (statistics_text_nonempty str_title self).
  set (ns := nonempty (PSG._generate_statistics str_title self)).
  cbv delta [PSG.generate]. cbv beta.
  repeat (match goal with
          | |- context C [let x := ?v in @?f x] =>
            let t := eval cbv beta in (f v) in
            let G := context C [t] in change G
          end; cbv beta).
  fold d. fold sts. fold ns.
  set (g1 := snd (PSG._generate_intro self g)).
  exists (match sts with
          | s0 :: _ => fst (choice s0 sts g1)
          | [] => {| story_title := []; story_content := []; story_year := None;
                     story_sources := None; story_type := None |}
          end).
  split.
  { destruct sts as [|s0 ss]; [rewrite andb_false_r; discriminate|].
    intros _. apply choice_In. discriminate. }
  subst g1.
  destruct (90 <=? d), (60 <=? d), (120 <=? d), (150 <=? d), (180 <=? d);
    unfold bind, ret; cbv beta zeta iota;
    destruct (PSG._generate_intro self g) as [[title intro] g1];
    cbn [fst snd andb];
    (destruct sts as [|s0 ss];
     [|destruct (choice s0 (s0 :: ss) g1) as [story g2]]);
    repeat match goal with
    | |- context [PSG._generate_key_landmarks self ?g'] =>
      let H := fresh in
      pose proof (key_landmarks_text_nonempty self g') as H; fold nk in H;
      destruct (PSG._generate_key_landmarks self g') as [? ?];
      cbn [fst] in H; try rewrite H; clear H
    | |- context [PSG._suggest_journalist_angles self ?g'] =>
      let H := fresh in
      pose proof (angles_text_nonempty self g') as H; fold na in H;
      destruct (PSG._suggest_journalist_angles self g') as [? ?];
      cbn [fst] in H; try rewrite H; clear H
    | |- context [PSG._generate_conclusion self ?g'] =>
      destruct (PSG._generate_conclusion self g') as [? ?]
    end;
    cbn [fst snd PSG.sections]; fold ns;
    destruct nk, ns, na; reflexivity.
Qed.

Lemma filter_all_titles {A} (p : str -> bool) (l : list (str * A)) :
  forallb p (map fst l) = true -> filter (fun s => p (fst s)) l = l.
Proof.
  induction l as [|x r IH]; simpl; [reflexivity|].
  intros H. apply andb_true_iff in H. destruct H as [-> H]. now rewrite IH.
Qed.

Lemma filter_titles {A} (p : str -> bool) (l : list (str * A)) t0 rest :
  map fst l = t0 :: rest -> p t0 = false -> forallb p rest = true ->
  filter (fun s => p (fst s)) l = tl l.
Proof.
  destruct l as [|s0 r]; [discriminate|]. cbn [map filter tl].
  intros E H0 Hr. injection E as E0 Er. rewrite E0, H0.
  apply filter_all_titles. now rewrite Er.
Qed.

Lemma length_if_single {A} (b : bool) (x : A) :
  length (if b then [x] else []) = if b then 1%nat else 0%nat.
Proof. now destruct b. Qed.

(** X9: which sections a script has.  The section titles are, in this
    order: title and introduction; historical background from 90 seconds;
    detailed description; significance from 60 seconds; one story of the
    landmark from 120 seconds if it has any; key landmarks from 90 seconds,
    statistics from 150 seconds and journalist angles from 180 seconds, each
    only if the landmark has such data; visit information from 60 seconds;
    conclusion.  So a script has between four and eleven sections. *)
Theorem sections_follow_the_duration str_title self now g :
  let d := PSG.duration_seconds self in
  let lm := PSG.landmark_data self in
  let titles := map fst (PSG.sections (fst (PSG.generate str_title self now g))) in
  (exists story,
    ((120 <=? d) && nonempty (get (stories lm) []) = true ->
     In story (get (stories lm) [])) /\
    titles =
      [u "العنوان"; u "المقدمة"]
      ++ (if 90 <=? d then [u "الخلفية التاريخية"] else [])
      ++ [u "الوصف التفصيلي"]
      ++ (if 60 <=? d then [u "الأهمية والتفرد"] else [])
      ++ (if (120 <=? d) && nonempty (get (stories lm) [])
          then [u "قصة: " ++ story_title story] else [])
      ++ (if (90 <=? d) && nonempty (get (key_landmarks lm) [])
          then [u "المعالم البارزة"] else [])
      ++ (if (150 <=? d) && nonempty (get (statistics lm) [])
          then [u "أرقام وإحصائيات"] else [])
      ++ (if (180 <=? d) && nonempty (get (journalist_angles lm) [])
          then [u "زوايا صحفية مقترحة"] else [])
      ++ (if 60 <=? d then [u "معلومات الزيارة"] else [])
      ++ [u "الخاتمة"]) /\
  4 <= len titles <= 11.
Proof.
  cbv zeta.
  destruct (generate_titles str_title self now g) as (story & Hin & E).
  cbv zeta in Hin, E. split; [exists story; split; [exact Hin|exact E]|].
  unfold len. rewrite E. rewrite !length_app, !length_if_single.
  cbn [length].
  repeat match goal with |- context [if ?b then _ else _] => destruct b end; lia.
Qed.

(** X10: the text of a script is its sections without the title.  The
    first section is the title section; the full text is the contents of
    all the other sections, at least three, joined by blank lines: no
    section title is part of the text, and no other section is skipped. *)
Theorem full_text_leaves_out_the_title_only str_title self now g :
  let sc := fst (PSG.generate str_title self now g) in
  exists title rest,
    PSG.sections sc = (u "العنوان", title) :: rest /\
    3 <= len rest /\
    PSG.full_text sc = join [LF; LF] (map snd rest).
Proof.
  cbv zeta.
  destruct (generate_titles str_title self now g) as (story & _ & E).
  destruct (generate_result str_title self now g) as (Hfull & _).
  cbv zeta in E, Hfull. rewrite Hfull.
  set (secs := PSG.sections (fst (PSG.generate str_title self now g))) in *.
  destruct secs as [|[t0 title] rest] eqn:Es; [discriminate E|].
  cbn [map fst app] in E. injection E as E0 Er. subst t0.
  exists title, rest. split; [reflexivity|]. split.
  { assert (L : len (map fst rest) = len rest) by (unfold len; now rewrite length_map).
    rewrite <- L, Er. unfold len.
    repeat (rewrite length_app || rewrite length_if_single || cbn [length]).
    repeat match goal with |- context [if ?b then _ else _] => destruct b end; lia. }
  unfold PSG._build_full_script. f_equal. f_equal.
  change (filter _ ((u "العنوان", title) :: rest)) with
    (filter (fun s : str * str =>
               (fun t => negb (str_eqb t (u "العنوان"))) (fst s))
            ((u "العنوان", title) :: rest)).
  rewrite (filter_titles _ _ (u "العنوان") (map fst rest)); [reflexivity|reflexivity| |].
  - vm_compute. reflexivity.
  - rewrite Er. cbn [forallb].
    apply andb_true_intro. split; [vm_compute; reflexivity|].
    repeat first [ rewrite forallb_app; apply andb_true_intro; split
                 | cbn [forallb]; apply andb_true_intro; split ];
      try match goal with |- context [if ?b then _ else _] => destruct b end;
      reflexivity.
Qed.

(** ** The landmark in the text *)

Lemma substring_here (w q : str) : substring w (w ++ q).
Proof. now exists [], q. Qed.

Lemma substring_after (p w q : str) : substring w q -> substring w (p ++ q).
Proof.
  intros (a & b & ->). exists (p ++ a), b. now rewrite <- app_assoc.
Qed.

Lemma substring_before (w t q : str) : substring w t -> substring w (t ++ q).
Proof.
  intros (a & b & ->). exists a, (b ++ q). now rewrite <- !app_assoc.
Qed.

Create HintDb substr.

#[local] Hint Resolve substring_here substring_after substring_before : substr.


(** ** The readability label *)

Lemma round_half_even_upper (k : Z) (x : Q) :
  (x <= inject_Z k)%Q -> round_half_even x <= k.
Proof.
  unfold Qle, round_half_even. destruct x as [n d].
  cbn [Qnum Qden inject_Z]. intros H. cbv zeta.
  pose proof (Z.div_mod n (Z.pos d) ltac:(lia)) as E.
  pose proof (Z.mod_pos_bound n (Z.pos d) ltac:(lia)) as B.
  destruct (Z.compare_spec (2 * (n mod Z.pos d)) (Z.pos d));
    [destruct (Z.even _)|..]; nia.
Qed.

Lemma round1_upper (k : Z) (x : Q) :
  (x * 10 <= inject_Z k)%Q -> (round1 x <= k # 10)%Q.
Proof.
  intros H. apply round_half_even_upper in H.
  unfold round1. rewrite Qred_correct. unfold Qle. cbn [Qnum Qden]. lia.
Qed.

Lemma Qltb_truediv a b k :
  0 < b -> Qltb (truediv a b) (inject_Z k) = (a <? k * b).
Proof.
  intros Hb.
  assert (Hq : (0 < inject_Z b)%Q).
  { replace 0%Q with (inject_Z 0) by reflexivity. now rewrite <- Zlt_Qlt. }
  destruct (Z.ltb_spec a (k * b)) as [H|H].
  - apply Qltb_lt. rewrite truediv_eq by assumption.
    apply Qlt_shift_div_r; [assumption|].
    rewrite <- inject_Z_mult, <- Zlt_Qlt. exact H.
  - apply not_true_iff_false. intros C. apply Qltb_lt in C.
    rewrite truediv_eq in C by assumption.
    apply (Qmult_lt_r _ _ (inject_Z b)) in C; [|assumption].
    assert (E : (inject_Z a / inject_Z b * inject_Z b == inject_Z a)%Q)
      by (field; lra).
    rewrite E, <- inject_Z_mult, <- Zlt_Qlt in C. lia.
Qed.

(** X12: the readability label of the generator's summary, in terms of
    the two counts next to it: "easy" below 15 words per sentence (and for a
    text without a sentence), "medium" from 15 to below 25, "advanced" from
    25 on.  The label is decided on the exact quotient, not on the rounded
    average that is reported. *)
Theorem readability_by_counts text :
  let a := PSG._analyze_script text in
  let w := PSG.sa_word_count a in
  let s := PSG.sa_sentence_count a in
  0 <= s /\
  (PSG.sa_readability a = u "سهل" <-> s = 0 \/ w < 15 * s) /\
  (PSG.sa_readability a = u "متوسط" <-> 0 < s /\ 15 * s <= w < 25 * s) /\
  (PSG.sa_readability a = u "متقدم" <-> 0 < s /\ 25 * s <= w).
Proof.
  cbv zeta. unfold PSG._analyze_script.
  cbn [PSG.sa_word_count PSG.sa_sentence_count PSG.sa_readability].
  set (w := len (split_ws text)).
  set (s := len (filter _ _)).
  assert (Hs : 0 <= s) by apply len_nonneg.
  split; [exact Hs|].
  assert (D1 : u "سهل" <> u "متوسط") by (vm_compute; discriminate).
  assert (D2 : u "سهل" <> u "متقدم") by (vm_compute; discriminate).
  assert (D3 : u "متوسط" <> u "متقدم") by (vm_compute; discriminate).
  destruct (Z.ltb_spec 0 s) as [Hpos|Hzero].
  - change 15%Q with (inject_Z 15). change 25%Q with (inject_Z 25).
    rewrite !Qltb_truediv by assumption.
    destruct (Z.ltb_spec w (15 * s)); [|destruct (Z.ltb_spec w (25 * s))];
      (split; [|split]); split; intros H';
      try reflexivity; try congruence; try lia;
      exfalso; (lia || (symmetry in H'; contradiction)).
  - change (Qltb 0 15) with true. cbv iota.
    (split; [|split]); split; intros H';
      try reflexivity; try congruence; try lia.
Qed.

(** X13: the two sentence-length judgements agree in one direction.
    When the analyzer's reported average sentence length exceeds 25, the
    condition of its rule on long sentences, the generator's summary of
    the same text is labelled "advanced". *)
Theorem long_sentences_read_advanced text :
  (25 < avg_sentence_length (_basic_analysis (init text)))%Q ->
  PSG.sa_readability (PSG._analyze_script text) = u "متقدم".
Proof.
  unfold _basic_analysis, PSG._analyze_script.
  cbn [avg_sentence_length PSG.sa_readability words sentences script_text init].
  assert (E : len (map strip_ws
                     (filter (fun s => nonempty (strip_ws s)) (split_on 46%N text)))
              = len (filter (fun s => nonempty (strip_ws s)) (split_on 46%N text))).
  { unfold len. now rewrite length_map. }
  rewrite E.
  set (w := len (split_ws text)).
  set (s := len (filter _ _)).
  destruct (Z.ltb_spec 0 s) as [Hpos|Hzero].
  - intros H.
    change 15%Q with (inject_Z 15). change 25%Q with (inject_Z 25).
    rewrite !Qltb_truediv by assumption.
    destruct (Z.ltb_spec w (25 * s)) as [Hlt|Hge].
    + exfalso. apply (Qlt_not_le _ _ H).
      setoid_replace 25%Q with (250 # 10)%Q by reflexivity.
      apply round1_upper.
      assert (Hq : (0 < inject_Z s)%Q).
      { replace 0%Q with (inject_Z 0) by reflexivity. now rewrite <- Zlt_Qlt. }
      rewrite truediv_eq by assumption.
      assert (Hw : (inject_Z w <= 25 * inject_Z s)%Q).
      { change 25%Q with (inject_Z 25).
        rewrite <- inject_Z_mult, <- Zle_Qle. lia. }
      apply (Qmult_le_r _ _ (inject_Z s)); [assumption|].
      assert (E' : (inject_Z w / inject_Z s * 10 * inject_Z s == 10 * inject_Z w)%Q)
        by (field; lra).
      rewrite E'. change (inject_Z 250) with 250%Q. lra.
    + destruct (Z.ltb_spec w (15 * s)); [lia|reflexivity].
  - intros H. exfalso. vm_compute in H. discriminate H.
Qed.

(** A sentence of thirty words *)
Lemma long_sentences_read_advanced_witness :
  let text := join (u " ") (repeat (u "كلمة") 30) ++ u "." in
  (25 < avg_sentence_length (_basic_analysis (init text)))%Q /\
  PSG.sa_readability (PSG._analyze_script text) = u "متقدم".
Proof.
  cbv zeta.
  assert (H : (25 < avg_sentence_length (_basic_analysis
                 (init (join (u " ") (repeat (u "كلمة") 30) ++ u "."))))%Q)
    by (vm_compute; reflexivity).
  split; [exact H|].
  exact (long_sentences_read_advanced _ H).
Defined.
